(** * A points bot for Telegram groups: model of [main.py] and its properties

    The bot keeps three MongoDB collections ([users], [warnings], [groups]),
    answers six chat commands and runs one background task that removes
    users without a recent point from every tracked group.

    Layout of the development:
    - [Mongo]: the collection operations the source uses, on lists of
      documents kept in insertion order;
    - the database functions of the source ([add_user] ... [clear_warnings])
      as pure functions on a [DB];
    - the handlers and the background task in a state-and-exception monad
      over a [World] (database plus the history of every interaction with
      the outside: clock, store round trips, Telegram calls, log lines);
    - the properties.

    A handler, and a pass of the background task, run here from start to
    end on the world they are given: no other coroutine changes the
    collections between two of their steps. *)

From Stdlib Require Import ZArith List String Ascii Bool Lia Arith.
From Stdlib Require Import Sorting.Sorted Sorting.Permutation DecimalString.
Import ListNotations.

Local Open Scope string_scope.
Local Open Scope Z_scope.

Set Implicit Arguments.

(* ------------------------------------------------------------------ *)
(** ** Telegram objects (the fields the source reads) *)

Module User.
(** [telegram.User]: [update.effective_user], [message.from_user]. *)
Record t := mk {
  id : Z;
  username : option string;
  first_name : string;
  last_name : option string
}.
End User.

Module Chat.
(** [telegram.Chat]: [update.effective_chat]. *)
Record t := mk {
  id : Z;
  title : option string
}.
End Chat.

Module Message.
(** [telegram.Message]; [reply_to_message] is the author of the message
    replied to, when the command is a reply. *)
Record t := mk {
  from_user : User.t;
  reply_to_message : option User.t
}.
End Message.

Module Update.
Record t := mk {
  effective_user : User.t;
  effective_chat : Chat.t;
  message : Message.t
}.
End Update.

(* ------------------------------------------------------------------ *)
(** ** Documents of the three collections *)

Module UserDoc.
Record t := mk {
  user_id : Z;
  username : option string;
  first_name : string;
  last_name : option string
}.
End UserDoc.

Module GroupDoc.
Record t := mk {
  chat_id : Z;
  title : option string
}.
End GroupDoc.

Module WarningDoc.
Record t := mk {
  user_id : Z;
  chat_id : Z;
  timestamp : Z;
  reason : string
}.
End WarningDoc.

(** One output document of the [$group] stage of [get_top_warned_users]. *)
Record TopEntry := mkTop { _id : Z; count : nat }.

(* ------------------------------------------------------------------ *)
(** ** The collection operations used by the source

    A collection is the list of its documents in insertion order. *)

Module Mongo.
Section Ops.
Variable D : Type.

(** [insert_one(doc)]. *)
Definition insert_one (doc : D) (col : list D) : list D := col ++ [doc].

(** [update_one(filter, {"$set": ...}, upsert=True)]: the first document
    matching [filter] is rewritten by [set]; with no match, [fresh] is
    inserted. *)
Fixpoint update_one_upsert (matches : D -> bool) (set : D -> D) (fresh : D)
    (col : list D) : list D :=
  match col with
  | [] => [fresh]
  | d :: rest =>
      if matches d then set d :: rest
      else d :: update_one_upsert matches set fresh rest
  end.

(** [find(filter)]. *)
Definition find (matches : D -> bool) (col : list D) : list D :=
  filter matches col.

(** [find_one(filter)]. *)
Definition find_one (matches : D -> bool) (col : list D) : option D :=
  List.find matches col.

(** [delete_many(filter)]. *)
Definition delete_many (matches : D -> bool) (col : list D) : list D :=
  filter (fun d => negb (matches d)) col.

(** [.sort(key, -1)] and [{"$sort": {key: -1}}]: descending by [key].
    The store promises no order among equal keys; here they keep their
    relative order. *)
Fixpoint insert_desc (key : D -> Z) (d : D) (sorted : list D) : list D :=
  match sorted with
  | [] => [d]
  | e :: rest =>
      if key e <=? key d then d :: e :: rest
      else e :: insert_desc key d rest
  end.

Fixpoint sort_desc (key : D -> Z) (col : list D) : list D :=
  match col with
  | [] => []
  | d :: rest => insert_desc key d (sort_desc key rest)
  end.

(** [distinct(field)]: the values of [field], each once. *)
Definition distinct (field : D -> Z) (col : list D) : list Z :=
  nodup Z.eq_dec (map field col).

(** [{"$group": {"_id": field, "count": {"$sum": 1}}}]: one pass over the
    collection, one accumulator per value of [field]. *)
Fixpoint group_incr (k : Z) (acc : list TopEntry) : list TopEntry :=
  match acc with
  | [] => [mkTop k 1]
  | e :: rest =>
      if _id e =? k then mkTop (_id e) (S (count e)) :: rest
      else e :: group_incr k rest
  end.

Definition group_count (field : D -> Z) (col : list D) : list TopEntry :=
  fold_left (fun acc d => group_incr (field d) acc) col [].
End Ops.

(** [{"$limit": n}] takes a positive 64-bit integer; anything else makes
    [aggregate] fail. *)
Definition valid_limit (n : Z) : bool := (1 <=? n) && (n <? 2 ^ 63).
End Mongo.

(* ------------------------------------------------------------------ *)
(** ** The database and the database functions of the source *)

Record DB := mkDB {
  users_col : list UserDoc.t;
  warnings_col : list WarningDoc.t;
  groups_col : list GroupDoc.t
}.

Definition empty_db : DB := mkDB [] [] [].

Definition user_doc (user : User.t) : UserDoc.t :=
  UserDoc.mk (User.id user) (User.username user) (User.first_name user)
             (User.last_name user).

Definition add_user (user : User.t) (db : DB) : DB :=
  mkDB (Mongo.update_one_upsert
          (fun d => UserDoc.user_id d =? User.id user)
          (fun _ => user_doc user) (user_doc user) (users_col db))
       (warnings_col db) (groups_col db).

Definition group_doc (chat : Chat.t) : GroupDoc.t :=
  GroupDoc.mk (Chat.id chat) (Chat.title chat).

Definition add_group (chat : Chat.t) (db : DB) : DB :=
  mkDB (users_col db) (warnings_col db)
       (Mongo.update_one_upsert
          (fun d => GroupDoc.chat_id d =? Chat.id chat)
          (fun _ => group_doc chat) (group_doc chat) (groups_col db)).

(** [add_warning]; [now] is the value [int(time.time())] had when the
    document was built. *)
Definition add_warning (user_id chat_id : Z) (reason : string) (now : Z)
    (db : DB) : DB :=
  mkDB (users_col db)
       (Mongo.insert_one (WarningDoc.mk user_id chat_id now reason)
                         (warnings_col db))
       (groups_col db).

Definition get_warnings (user_id : Z) (db : DB) : list WarningDoc.t :=
  Mongo.sort_desc WarningDoc.timestamp
    (Mongo.find (fun w => WarningDoc.user_id w =? user_id) (warnings_col db)).

Definition get_group_title (chat_id : Z) (db : DB) : option string :=
  match Mongo.find_one (fun g => GroupDoc.chat_id g =? chat_id) (groups_col db) with
  | Some group => GroupDoc.title group
  | None => None
  end.

(** Python exceptions that occur in the model. *)
Inductive Exn :=
| PyMongoError        (* the store did not answer, or rejected the command *)
| TelegramError       (* a Bot API call failed *)
| ValueError.         (* [int(...)] on a string it cannot parse *)

Inductive Res (A : Type) :=
| Ret (a : A)
| Raise (e : Exn).
Arguments Raise {A} e.

Definition default_limit : Z := 10.

Definition get_top_warned_users (limit : Z) (db : DB) : Res (list TopEntry) :=
  if Mongo.valid_limit limit then
    Ret (firstn (Z.to_nat limit)
           (Mongo.sort_desc (fun e => Z.of_nat (count e))
              (Mongo.group_count WarningDoc.user_id (warnings_col db))))
  else Raise PyMongoError.

Definition warned_user_ids (db : DB) : list Z :=
  Mongo.distinct WarningDoc.user_id (warnings_col db).

(** [users_col.find({"user_id": {"$nin": ids}})]. *)
Definition users_not_in (ids : list Z) (db : DB) : list UserDoc.t :=
  Mongo.find (fun u => negb (existsb (Z.eqb (UserDoc.user_id u)) ids))
             (users_col db).

Definition get_users_with_no_warnings (db : DB) : list UserDoc.t :=
  users_not_in (warned_user_ids db) db.

Definition clear_warnings (user_id : Z) (db : DB) : DB :=
  mkDB (users_col db)
       (Mongo.delete_many (fun w => WarningDoc.user_id w =? user_id)
                          (warnings_col db))
       (groups_col db).

(* ------------------------------------------------------------------ *)
(** ** The outside world

    Every interaction of the program with the outside is an [Event], kept
    in order in the history. What the outside answers is a function of the
    history so far, so two calls with the same arguments may be answered
    differently. *)

Inductive Collection := Users | Warnings | Groups.

Inductive ParseMode := PlainText | HTML.

Inductive Event :=
| TimeTime (now : Z)                               (* [int(time.time())] *)
| Store (col : Collection) (ok : bool)             (* one round trip to a collection *)
| GetMember (chat_id user_id : Z) (status : option string)
| GetChat (chat_id : Z) (found : option User.t)
| BanChatMember (chat_id user_id : Z) (ok : bool)
| UnbanChatMember (chat_id user_id : Z) (ok : bool)
| ReplyText (text : string) (mode : ParseMode) (ok : bool)
| LogRemoved (user_id chat_id : Z)                 (* [logger.info] of the task *)
| LogRemoveFailed (user_id chat_id : Z) (e : Exn)  (* [logger.warning] of the task *)
| LogError (e : Exn)                               (* [logger.error] of [error_handler] *)
| Sleep (seconds : Z).

Module Env.
Record t := mk {
  time_time : list Event -> Z;
  store_up : list Event -> Collection -> bool;
  get_member : list Event -> Z -> Z -> option string;
  get_chat : list Event -> Z -> option User.t;
  ban_chat_member : list Event -> Z -> Z -> bool;
  unban_chat_member : list Event -> Z -> Z -> bool;
  reply_text : list Event -> string -> bool
}.
End Env.

(** Functions of the Python library whose tables are not part of the
    repository: [str.isdigit] and [int] (both depend on the Unicode
    database), and [datetime.fromtimestamp(t).strftime('%Y-%m-%d %H:%M:%S')]
    (depends on the time zone of the host). [int] gives [None] where Python
    raises [ValueError]. *)
Module Py.
Record t := mk {
  isdigit : string -> bool;
  int : string -> option Z;
  strftime : Z -> string
}.
End Py.

Record World := mkWorld {
  db : DB;
  history : list Event
}.

(* ------------------------------------------------------------------ *)
(** ** State and exceptions *)

Definition M (A : Type) : Type := World -> Res A * World.

Definition ret {A} (a : A) : M A := fun w => (Ret a, w).

Definition bind {A B} (m : M A) (k : A -> M B) : M B :=
  fun w =>
    match m w with
    | (Ret a, w') => k a w'
    | (Raise e, w') => (Raise e, w')
    end.

(** [try: m  except Exception as e: handler(e)]. *)
Definition try_except {A} (m : M A) (handler : Exn -> M A) : M A :=
  fun w =>
    match m w with
    | (Ret a, w') => (Ret a, w')
    | (Raise e, w') => handler e w'
    end.

Notation "x <- m ;; k" := (bind m (fun x => k))
  (at level 61, m at next level, right associativity).
Notation "m ;; k" := (bind m (fun _ => k))
  (at level 61, right associativity).

Definition record (e : Event) (w : World) : World :=
  mkWorld (db w) (history w ++ [e]).

Definition emit (e : Event) : M unit := fun w => (Ret tt, record e w).

(** [for x in xs: body(x)]. *)
Fixpoint for_each {A} (xs : list A) (body : A -> M unit) : M unit :=
  match xs with
  | [] => ret tt
  | x :: rest => body x ;; for_each rest body
  end.

(** [for _ in range(n): body]. *)
Fixpoint for_range (n : nat) (body : M unit) : M unit :=
  match n with
  | O => ret tt
  | S n' => body ;; for_range n' body
  end.

Section Primitives.
Variable env : Env.t.

Definition time_time : M Z := fun w =>
  let now := Env.time_time env (history w) in
  (Ret now, record (TimeTime now) w).

(** A read of collection [col]. *)
Definition query {A} (col : Collection) (q : DB -> A) : M A := fun w =>
  if Env.store_up env (history w) col
  then (Ret (q (db w)), record (Store col true) w)
  else (Raise PyMongoError, record (Store col false) w).

(** A write to collection [col]. *)
Definition command (col : Collection) (f : DB -> DB) : M unit := fun w =>
  if Env.store_up env (history w) col
  then (Ret tt, record (Store col true) (mkWorld (f (db w)) (history w)))
  else (Raise PyMongoError, record (Store col false) w).

Definition get_member (chat_id user_id : Z) : M string := fun w =>
  let status := Env.get_member env (history w) chat_id user_id in
  (match status with Some s => Ret s | None => Raise TelegramError end,
   record (GetMember chat_id user_id status) w).

Definition get_chat (chat_id : Z) : M User.t := fun w =>
  let found := Env.get_chat env (history w) chat_id in
  (match found with Some u => Ret u | None => Raise TelegramError end,
   record (GetChat chat_id found) w).

Definition ban_chat_member (chat_id user_id : Z) : M unit := fun w =>
  let ok := Env.ban_chat_member env (history w) chat_id user_id in
  (if ok then Ret tt else Raise TelegramError,
   record (BanChatMember chat_id user_id ok) w).

Definition unban_chat_member (chat_id user_id : Z) : M unit := fun w =>
  let ok := Env.unban_chat_member env (history w) chat_id user_id in
  (if ok then Ret tt else Raise TelegramError,
   record (UnbanChatMember chat_id user_id ok) w).

Definition reply_text (text : string) (mode : ParseMode) : M unit := fun w =>
  let ok := Env.reply_text env (history w) text in
  (if ok then Ret tt else Raise TelegramError,
   record (ReplyText text mode ok) w).

Definition sleep (seconds : Z) : M unit := emit (Sleep seconds).
End Primitives.

(* ------------------------------------------------------------------ *)
(** ** Text *)

Definition newline : string := String (ascii_of_nat 10) "".

(** [str(n)] and [{n}] in an f-string. *)
Definition str_of_Z (n : Z) : string := NilZero.string_of_int (Z.to_int n).

(** [html.escape(s)] (with [quote=True]). *)
Definition escape_char (c : ascii) : string :=
  if Ascii.eqb c "&" then "&amp;"
  else if Ascii.eqb c "<" then "&lt;"
  else if Ascii.eqb c ">" then "&gt;"
  else if Ascii.eqb c (ascii_of_nat 34) then "&quot;"
  else if Ascii.eqb c "'" then "&#x27;"
  else String c "".

Fixpoint html_escape (s : string) : string :=
  match s with
  | EmptyString => ""
  | String c rest => escape_char c ++ html_escape rest
  end.

(** [x or default] on strings. *)
Definition str_or (x default : string) : string :=
  if String.eqb x "" then default else x.

Definition mention_of (id : Z) (name : string) : string :=
  "<a href='tg://user?id=" ++ str_of_Z id ++ "'>" ++ name ++ "</a>".

Definition get_user_mention (user : User.t) : string :=
  let safe_name := html_escape (str_or (User.first_name user) "Utente") in
  mention_of (User.id user) safe_name.

(** [safe_mention], on a document of the users collection; [add_user]
    always stores the key "first_name", so the default of [user.get] is
    never taken. *)
Definition safe_mention (user : UserDoc.t) : string :=
  let name := html_escape (UserDoc.first_name user) in
  mention_of (UserDoc.user_id user) name.

Definition admin_only : string :=
  "Solo gli amministratori possono usare questo comando.".

Definition default_reason : string := "Nessun motivo fornito.".

Definition warn_message (mention : string) (warn_count : nat) : string :=
  "+1 punto per " ++ mention ++ "." ++ newline ++
  "Totale punti: <b>" ++ str_of_Z (Z.of_nat warn_count) ++ "</b>".

(* ------------------------------------------------------------------ *)
(** ** Commands *)

(** [user = user_id or update.effective_user.id] of [is_admin]. *)
Definition is_admin_user (update : Update.t) (user_id : option Z) : Z :=
  match user_id with
  | Some u => if u =? 0 then User.id (Update.effective_user update) else u
  | None => User.id (Update.effective_user update)
  end.

Section Handlers.
Variable py : Py.t.
Variable env : Env.t.

Definition is_admin (update : Update.t) (user_id : option Z) : M bool :=
  let user := is_admin_user update user_id in
  try_except
    (status <- get_member env (Chat.id (Update.effective_chat update)) user ;;
     ret (existsb (String.eqb status) ["administrator"; "creator"]))
    (fun _ => ret false).

Definition start (update : Update.t) : M unit :=
  reply_text env "🤖 Bot per la gestione dei punti attivo." PlainText ;;
  command env Users (add_user (Message.from_user (Update.message update))) ;;
  command env Groups (add_group (Update.effective_chat update)).

(** The argument parsing of [warn]: the values of [amount] and [reason]
    when the [if context.args:] block is left. *)
Definition warn_args (args : list string) : Z * string :=
  match args with
  | [] => (1, default_reason)
  | first :: rest =>
      if Py.isdigit py first then
        match Py.int py first with
        | Some n =>
            (n, match rest with
                | [] => default_reason
                | _ => String.concat " " rest
                end)
        | None => (1, default_reason)          (* [except Exception: pass] *)
        end
      else (1, String.concat " " args)
  end.

(** [add_warning] as the handlers call it: the clock is read, then the
    document is inserted. *)
Definition add_warning_now (user_id chat_id : Z) (reason : string) : M unit :=
  now <- time_time env ;;
  command env Warnings (add_warning user_id chat_id reason now).

Definition warn (update : Update.t) (args : list string) : M unit :=
  admin <- is_admin update None ;;
  if negb admin then reply_text env admin_only PlainText
  else
    match Message.reply_to_message (Update.message update) with
    | Some warned_user =>
        let (amount, reason) := warn_args args in
        let amount := Z.max 1 (Z.min amount 100) in
        command env Users (add_user warned_user) ;;
        for_range (Z.to_nat amount)
          (add_warning_now (User.id warned_user)
                           (Chat.id (Update.effective_chat update)) reason) ;;
        warnings <- query env Warnings (get_warnings (User.id warned_user)) ;;
        let warn_count := List.length warnings in
        let mention := get_user_mention warned_user in
        reply_text env (warn_message mention warn_count) HTML
    | None =>
        reply_text env "Rispondi a un messaggio per assegnare un punto." PlainText
    end.

(** The lines of the [/warnings] reply, one store lookup per entry. *)
Fixpoint warning_lines (entries : list WarningDoc.t) (text : string) : M string :=
  match entries with
  | [] => ret text
  | entry :: rest =>
      group_title <- query env Groups (get_group_title (WarningDoc.chat_id entry)) ;;
      let group_info :=
        match group_title with
        | Some t => if String.eqb t "" then "" else " in " ++ t
        | None => ""
        end in
      warning_lines rest
        (text ++ "- " ++ Py.strftime py (WarningDoc.timestamp entry) ++ group_info
              ++ ": " ++ html_escape (WarningDoc.reason entry) ++ newline)
  end.

(** The target of [/warnings]: the user id and the mention, or [None]
    when the handler has already answered and returns. *)
Definition warnings_target (update : Update.t) (args : list string)
    : M (option (Z * string)) :=
  match Message.reply_to_message (Update.message update) with
  | Some target => ret (Some (User.id target, get_user_mention target))
  | None =>
      match args with
      | first :: _ =>
          try_except
            (match Py.int py first with
             | Some user_id_to_check =>
                 user_info <- get_chat env user_id_to_check ;;
                 ret (Some (user_id_to_check, get_user_mention user_info))
             | None => fun w => (Raise ValueError, w)
             end)
            (fun _ =>
               reply_text env "Utente non trovato o ID non valido." PlainText ;;
               ret None)
      | [] =>
          ret (Some (User.id (Update.effective_user update),
                     get_user_mention (Update.effective_user update)))
      end
  end.

Definition warnings_command (update : Update.t) (args : list string) : M unit :=
  admin <- is_admin update None ;;
  if negb admin then reply_text env admin_only PlainText
  else
    target <- warnings_target update args ;;
    match target with
    | None => ret tt
    | Some (user_id_to_check, user_to_mention) =>
        warnings_data <- query env Warnings (get_warnings user_id_to_check) ;;
        match warnings_data with
        | _ :: _ =>
            warning_text <-
              warning_lines warnings_data
                ("📋 Punti per " ++ user_to_mention ++ ":" ++ newline) ;;
            reply_text env warning_text HTML
        | [] =>
            reply_text env (user_to_mention ++ " non ha ancora punti.") HTML
        end
    end.

Definition clear_warnings_command (update : Update.t) : M unit :=
  admin <- is_admin update None ;;
  if negb admin then reply_text env admin_only PlainText
  else
    match Message.reply_to_message (Update.message update) with
    | Some user =>
        command env Warnings (clear_warnings (User.id user)) ;;
        reply_text env
          ("✅ Tutti i punti per " ++ get_user_mention user ++ " sono stati rimossi.")
          HTML
    | None =>
        reply_text env
          "Rispondi a un messaggio per pulire i punti di quell’utente." PlainText
    end.

(** A round trip whose command the store may reject. *)
Definition aggregate {A} (col : Collection) (q : DB -> Res A) : M A := fun w =>
  if Env.store_up env (history w) col then
    match q (db w) with
    | Ret a => (Ret a, record (Store col true) w)
    | Raise e => (Raise e, record (Store col false) w)
    end
  else (Raise PyMongoError, record (Store col false) w).

(** The lines of the [/topwarnings] reply; [idx] counts from 1. *)
Fixpoint top_lines (entries : list TopEntry) (idx : nat) (message : string)
    : M string :=
  match entries with
  | [] => ret message
  | entry :: rest =>
      user_data <-
        query env Users
          (fun d => Mongo.find_one (fun u => UserDoc.user_id u =? _id entry)
                                   (users_col d)) ;;
      let mention :=
        match user_data with
        | Some u => mention_of (_id entry) (html_escape (UserDoc.first_name u))
        | None => "ID " ++ str_of_Z (_id entry)
        end in
      top_lines rest (S idx)
        (message ++ str_of_Z (Z.of_nat idx) ++ ". " ++ mention ++ " — "
                 ++ str_of_Z (Z.of_nat (count entry)) ++ " punti" ++ newline)
  end.

Definition top_warnings : M unit :=
  top_users <- aggregate Warnings (get_top_warned_users default_limit) ;;
  match top_users with
  | [] => reply_text env "Nessun punto registrato." PlainText
  | _ :: _ =>
      message <-
        top_lines top_users 1
          ("<b>🏆 Classifica utenti con più punti:</b>" ++ newline) ;;
      reply_text env message HTML
  end.

Fixpoint no_warnings_lines (users : list UserDoc.t) (idx : nat) (message : string)
    : string :=
  match users with
  | [] => message
  | user :: rest =>
      let mention :=
        mention_of (UserDoc.user_id user) (html_escape (UserDoc.first_name user)) in
      no_warnings_lines rest (S idx)
        (message ++ str_of_Z (Z.of_nat idx) ++ ". " ++ mention ++ newline)
  end.

Definition no_warnings : M unit :=
  warned <- query env Warnings warned_user_ids ;;
  users <- query env Users (users_not_in warned) ;;
  match users with
  | [] => reply_text env "Tutti gli utenti hanno almeno un punto." PlainText
  | _ :: _ =>
      reply_text env
        (no_warnings_lines users 1 ("<b>👥 Utenti senza punti:</b>" ++ newline))
        HTML
  end.

(** What the dispatcher does with a handler: an exception that leaves the
    handler reaches [error_handler], which logs it. *)
Definition error_handler (e : Exn) : M unit := emit (LogError e).

Definition dispatch (handler : M unit) : M unit :=
  try_except handler error_handler.

(* ---------------------------------------------------------------- *)
(** ** The background task *)

(** The [try] block of the task for one user and one group. *)
Definition remove_from_group (chat_id user_id : Z) : M unit :=
  try_except
    (ban_chat_member env chat_id user_id ;;
     unban_chat_member env chat_id user_id ;;
     emit (LogRemoved user_id chat_id))
    (fun e => emit (LogRemoveFailed user_id chat_id e)).

Definition recent_warning_of (user_id one_day_ago : Z) (w : WarningDoc.t) : bool :=
  (WarningDoc.user_id w =? user_id) && (one_day_ago <=? WarningDoc.timestamp w).

(** The body of the [for user in all_users] loop. *)
Definition sweep_user (one_day_ago : Z) (user : UserDoc.t) : M unit :=
  let user_id := UserDoc.user_id user in
  recent_warning <-
    query env Warnings
      (fun d => Mongo.find_one (recent_warning_of user_id one_day_ago)
                               (warnings_col d)) ;;
  match recent_warning with
  | Some _ => ret tt
  | None =>
      groups <- query env Groups groups_col ;;
      for_each groups
        (fun group => remove_from_group (GroupDoc.chat_id group) user_id)
  end.

(** One pass through the body of [while True]. *)
Definition sweep_cycle : M unit :=
  now <- time_time env ;;
  let one_day_ago := now - 24 * 60 * 60 in
  all_users <- query env Users users_col ;;
  for_each all_users (sweep_user one_day_ago) ;;
  sleep 3600.

(** [auto_ban_inactive_users]: [while True] unrolled [fuel] times. The
    loop has no exit, so [Ret tt] means the fuel ran out with the task
    still running, and [Raise e] that the task ended with exception [e]. *)
Fixpoint auto_ban_inactive_users (fuel : nat) : M unit :=
  match fuel with
  | O => ret tt
  | S fuel' => sweep_cycle ;; auto_ban_inactive_users fuel'
  end.
End Handlers.

(* ================================================================== *)
(** * Vocabulary of the properties *)

(** Descending by [key]: each document's key is at most its predecessor's. *)
Definition descending {D} (key : D -> Z) : list D -> Prop :=
  Sorted (fun a b => key b <= key a).

(** Number of occurrences of [k] among [keys]. *)
Definition occurrences (k : Z) (keys : list Z) : nat :=
  List.length (filter (Z.eqb k) keys).

(** Sum of the counters kept for [k]. *)
Definition tally (acc : list TopEntry) (k : Z) : nat :=
  list_sum (map count (filter (fun e => _id e =? k) acc)).

(** Number of warning documents of a user, whatever the chat. *)
Definition total_warnings (user_id : Z) (d : DB) : nat :=
  List.length (filter (fun w => WarningDoc.user_id w =? user_id) (warnings_col d)).

(** A sequence of [add_warning] calls. *)
Record Insert := mkInsert {
  ins_user_id : Z;
  ins_chat_id : Z;
  ins_reason : string;
  ins_now : Z
}.

Definition record_warnings (calls : list Insert) (d : DB) : DB :=
  fold_left
    (fun d c => add_warning (ins_user_id c) (ins_chat_id c) (ins_reason c) (ins_now c) d)
    calls d.

Definition inserts_for (user_id : Z) (calls : list Insert) : nat :=
  List.length (filter (fun c => ins_user_id c =? user_id) calls).

(** The warning documents [/punto] inserts, one per clock reading, and a
    database with warning documents appended. *)
Definition new_warnings (user_id chat_id : Z) (reason : string) (stamps : list Z)
    : list WarningDoc.t :=
  map (fun t => WarningDoc.mk user_id chat_id t reason) stamps.

Definition with_warnings (d : DB) (ws : list WarningDoc.t) : DB :=
  mkDB (users_col d) (warnings_col d ++ ws) (groups_col d).

(** [reason] of [warn] when the first token was taken as the amount. *)
Definition reason_of (rest : list string) : string :=
  match rest with
  | [] => default_reason
  | _ :: _ => String.concat " " rest
  end.

(** The databases the program can build: it writes to the collections
    through four functions only. *)
Inductive reachable : DB -> Prop :=
| reach_empty : reachable empty_db
| reach_add_user user d : reachable d -> reachable (add_user user d)
| reach_add_group chat d : reachable d -> reachable (add_group chat d)
| reach_add_warning u c r t d : reachable d -> reachable (add_warning u c r t d)
| reach_clear_warnings u d : reachable d -> reachable (clear_warnings u d).

(** Result, final world and new events of a run. *)
Definition outcome {A} (m : M A) (w : World) : Res A := fst (m w).
Definition after {A} (m : M A) (w : World) : World := snd (m w).
Definition events_of {A} (m : M A) (w : World) : list Event :=
  skipn (List.length (history w)) (history (after m w)).

(** A computation that leaves the database among those the program can
    build, however it ends. *)
Definition keeps_reachable {A} (m : M A) : Prop :=
  forall w, reachable (db w) -> reachable (db (after m w)).

(** The store answers every round trip. *)
Definition store_always_up (env : Env.t) : Prop :=
  forall h col, Env.store_up env h col = true.

(** Some warning of the user, in whatever chat, is not older than
    [one_day_ago]. *)
Definition has_recent_warning (user_id one_day_ago : Z) (d : DB) : Prop :=
  exists w, In w (warnings_col d) /\ WarningDoc.user_id w = user_id /\
            one_day_ago <= WarningDoc.timestamp w.

(** The ban and unban calls of a history that concern one group and user. *)
Definition is_call_on (chat_id user_id : Z) (e : Event) : bool :=
  match e with
  | BanChatMember c u _ | UnbanChatMember c u _ => (c =? chat_id) && (u =? user_id)
  | _ => false
  end.

Definition calls_on (chat_id user_id : Z) (evs : list Event) : list Event :=
  filter (is_call_on chat_id user_id) evs.

(** The role strings that [is_admin] accepts. *)
Definition authorized (status : option string) : bool :=
  match status with
  | Some s => existsb (String.eqb s) ["administrator"; "creator"]
  | None => false
  end.

(** What one removal attempt leaves among the calls on a group and a user:
    a ban and an unban, or a ban alone when the ban call failed. *)
Definition one_removal_attempt (chat_id user_id : Z) (calls : list Event) : Prop :=
  calls = [BanChatMember chat_id user_id true; UnbanChatMember chat_id user_id true] \/
  calls = [BanChatMember chat_id user_id true; UnbanChatMember chat_id user_id false] \/
  calls = [BanChatMember chat_id user_id false].

(** Every failed ban or unban call of a history has its [logger.warning] line. *)
Definition failures_logged (evs : list Event) : Prop :=
  forall c u,
    In (BanChatMember c u false) evs \/ In (UnbanChatMember c u false) evs ->
    In (LogRemoveFailed u c TelegramError) evs.

(** The events the loop over the users can leave: store round trips, ban
    and unban calls, and the two log lines of the [try] block. *)
Definition sweep_body_event (e : Event) : bool :=
  match e with
  | Store _ _ | BanChatMember _ _ _ | UnbanChatMember _ _ _ | LogRemoved _ _ => true
  | LogRemoveFailed _ _ TelegramError => true
  | _ => false
  end.

Definition store_failure (e : Event) : bool :=
  match e with
  | Store _ false => true
  | _ => false
  end.

(** *** The shape of the task's history *)

(** Events of the [try] block for one group and one user. *)
Inductive kick_events (chat_id user_id : Z) : list Event -> Prop :=
| kick_done :
    kick_events chat_id user_id
      [BanChatMember chat_id user_id true; UnbanChatMember chat_id user_id true;
       LogRemoved user_id chat_id]
| kick_unban_failed :
    kick_events chat_id user_id
      [BanChatMember chat_id user_id true; UnbanChatMember chat_id user_id false;
       LogRemoveFailed user_id chat_id TelegramError]
| kick_ban_failed :
    kick_events chat_id user_id
      [BanChatMember chat_id user_id false;
       LogRemoveFailed user_id chat_id TelegramError].

(** Events of the loop over the groups for one user. *)
Inductive groups_events (user_id : Z) : list GroupDoc.t -> list Event -> Prop :=
| groups_nil : groups_events user_id [] []
| groups_cons g rest e1 e2 :
    kick_events (GroupDoc.chat_id g) user_id e1 ->
    groups_events user_id rest e2 ->
    groups_events user_id (g :: rest) (e1 ++ e2).

(** Result and events of the loop body for one user. *)
Inductive user_events (one_day_ago : Z) (d : DB) (user : UserDoc.t)
    : Res unit -> list Event -> Prop :=
| user_recent :
    has_recent_warning (UserDoc.user_id user) one_day_ago d ->
    user_events one_day_ago d user (Ret tt) [Store Warnings true]
| user_removed evs :
    ~ has_recent_warning (UserDoc.user_id user) one_day_ago d ->
    groups_events (UserDoc.user_id user) (groups_col d) evs ->
    user_events one_day_ago d user (Ret tt)
      (Store Warnings true :: Store Groups true :: evs)
| user_warnings_down :
    user_events one_day_ago d user (Raise PyMongoError) [Store Warnings false]
| user_groups_down :
    ~ has_recent_warning (UserDoc.user_id user) one_day_ago d ->
    user_events one_day_ago d user (Raise PyMongoError)
      [Store Warnings true; Store Groups false].

(** Result and events of the loop over the users. *)
Inductive users_events (one_day_ago : Z) (d : DB)
    : list UserDoc.t -> Res unit -> list Event -> Prop :=
| users_nil : users_events one_day_ago d [] (Ret tt) []
| users_cons user rest r e1 e2 :
    user_events one_day_ago d user (Ret tt) e1 ->
    users_events one_day_ago d rest r e2 ->
    users_events one_day_ago d (user :: rest) r (e1 ++ e2)
| users_stop user rest e e1 :
    user_events one_day_ago d user (Raise e) e1 ->
    users_events one_day_ago d (user :: rest) (Raise e) e1.

(** Result and events of one pass of the task, the clock showing [now]. *)
Inductive cycle_events (now : Z) (d : DB) : Res unit -> list Event -> Prop :=
| cycle_done evs :
    users_events (now - 86400) d (users_col d) (Ret tt) evs ->
    cycle_events now d (Ret tt)
      (TimeTime now :: Store Users true :: evs ++ [Sleep 3600])
| cycle_users_down :
    cycle_events now d (Raise PyMongoError) [TimeTime now; Store Users false]
| cycle_stopped e evs :
    users_events (now - 86400) d (users_col d) (Raise e) evs ->
    cycle_events now d (Raise e) (TimeTime now :: Store Users true :: evs).

(** *** Further vocabulary *)

(** [users_col.find_one({"user_id": k})] and its counterpart for groups. *)
Definition user_of (k : Z) (d : DB) : option UserDoc.t :=
  Mongo.find_one (fun u => UserDoc.user_id u =? k) (users_col d).

Definition group_of (k : Z) (d : DB) : option GroupDoc.t :=
  Mongo.find_one (fun g => GroupDoc.chat_id g =? k) (groups_col d).

(** A computation that leaves the three collections as they were, however
    it ends. *)
Definition keeps_db {A} (m : M A) : Prop :=
  forall w, db (after m w) = db w.

(** Counting events of a history. *)
Definition count_events (p : Event -> bool) (evs : list Event) : nat :=
  List.length (filter p evs).

Definition is_sleep (e : Event) : bool :=
  match e with
  | Sleep _ => true
  | _ => false
  end.

Definition is_ban_on (chat_id user_id : Z) (e : Event) : bool :=
  match e with
  | BanChatMember c u _ => (c =? chat_id) && (u =? user_id)
  | _ => false
  end.

Definition is_store_trip (e : Event) : bool :=
  match e with
  | Store _ _ => true
  | _ => false
  end.

(** Whether character [c] occurs in [s]. *)
Fixpoint char_occurs (c : ascii) (s : string) : bool :=
  match s with
  | EmptyString => false
  | String c' rest => Ascii.eqb c' c || char_occurs c rest
  end.

(** The characters that open or close a tag or an attribute value. *)
Definition markup_chars : list ascii :=
  ["<"%char; ">"%char; ascii_of_nat 34; "'"%char].

(** *** Sample inputs *)

Module Sample.
Definition alice : User.t := User.mk 7 (Some "alice") "Alice" None.
Definition bob : User.t := User.mk 8 None "Bob" (Some "B.").
Definition g1 : Chat.t := Chat.mk (-1001) (Some "G1").
Definition g2 : Chat.t := Chat.mk (-1002) (Some "G2").

(** Alice tracked, two tracked groups, no warning. *)
Definition db0 : DB := add_group g2 (add_group g1 (add_user alice empty_db)).
Definition w0 : World := mkWorld db0 [].

(** An outside world whose answers do not depend on the history: the
    clock shows [now], the store is up or down, every role lookup gives
    [status], [ban_ok] and [unban_ok] tell per chat whether the call
    succeeds, replies are delivered. *)
Definition env (now : Z) (store_ok : bool) (status : option string)
    (ban_ok unban_ok : Z -> bool) : Env.t :=
  Env.mk (fun _ => now) (fun _ _ => store_ok) (fun _ _ _ => status)
         (fun _ _ => None) (fun _ c _ => ban_ok c) (fun _ c _ => unban_ok c)
         (fun _ _ => true).

Definition now : Z := 1700000000.

(** Everything works. *)
Definition env_ok (status : option string) : Env.t :=
  env now true status (fun _ => true) (fun _ => true).
(** The ban call fails in G1 only. *)
Definition env_g1_ban_fails : Env.t :=
  env now true None (fun c => negb (c =? Chat.id g1)) (fun _ => true).
(** The store is down. *)
Definition env_store_down : Env.t :=
  env now false None (fun _ => true) (fun _ => true).

(** Stand-ins for the three library functions. [isdigit] and [int] agree
    with CPython on strings of ASCII digits and on the superscript two
    (a digit for [str.isdigit], rejected by [int]); [strftime] prints the
    number of seconds. *)
Definition ascii_digit (c : ascii) : bool :=
  (48 <=? nat_of_ascii c)%nat && (nat_of_ascii c <=? 57)%nat.

Fixpoint all_ascii_digits (s : string) : bool :=
  match s with
  | EmptyString => true
  | String c rest => ascii_digit c && all_ascii_digits rest
  end.

Fixpoint decimal_value (s : string) (acc : Z) : Z :=
  match s with
  | EmptyString => acc
  | String c rest => decimal_value rest (10 * acc + (Z.of_nat (nat_of_ascii c) - 48))
  end.

Definition isdigit (s : string) : bool :=
  negb (String.eqb s "") && (all_ascii_digits s || String.eqb s "²").

Definition int (s : string) : option Z :=
  if negb (String.eqb s "") && all_ascii_digits s
  then Some (decimal_value s 0) else None.

Definition py : Py.t := Py.mk isdigit int str_of_Z.

(** A command sent by Bob in G1 as a reply to a message of Alice. *)
Definition reply_to_alice : Update.t :=
  Update.mk bob g1 (Message.mk bob (Some alice)).
End Sample.

(* ================================================================== *)
(** * Properties *)

(** ** Facts about the collection operations *)

Section MongoFacts.
Variable D : Type.
Variable key : D -> Z.

Lemma insert_desc_perm (d : D) (l : list D) :
  Permutation (d :: l) (Mongo.insert_desc key d l).
Proof.
  induction l as [|e l IH]; simpl; [reflexivity|].
  destruct (key e <=? key d); [reflexivity|].
  rewrite perm_swap. now apply perm_skip.
Qed.

Lemma sort_desc_perm (l : list D) : Permutation l (Mongo.sort_desc key l).
Proof.
  induction l as [|d l IH]; simpl; [constructor|].
  rewrite <- insert_desc_perm. now apply perm_skip.
Qed.

Lemma sort_desc_length (l : list D) :
  List.length (Mongo.sort_desc key l) = List.length l.
Proof. symmetry. apply Permutation_length, sort_desc_perm. Qed.

Lemma insert_desc_hd (d x : D) (l : list D) :
  key d <= key x -> HdRel (fun a b => key b <= key a) x l ->
  HdRel (fun a b => key b <= key a) x (Mongo.insert_desc key d l).
Proof.
  intros Hd Hl. destruct l as [|e l]; simpl.
  - now constructor.
  - destruct (key e <=? key d); constructor; auto.
    now inversion Hl.
Qed.

Lemma insert_desc_sorted (d : D) (l : list D) :
  descending key l -> descending key (Mongo.insert_desc key d l).
Proof.
  unfold descending. induction l as [|e l IH]; intros Hs; simpl.
  - repeat constructor.
  - destruct (key e <=? key d) eqn:E.
    + constructor; [assumption|]. constructor. now apply Z.leb_le.
    + apply Z.leb_gt in E. inversion Hs; subst.
      constructor; [now apply IH|].
      apply insert_desc_hd; [lia|assumption].
Qed.

Lemma sort_desc_sorted (l : list D) : descending key (Mongo.sort_desc key l).
Proof.
  induction l as [|d l IH]; simpl; [constructor|].
  now apply insert_desc_sorted.
Qed.

Lemma descending_firstn (n : nat) (l : list D) :
  descending key l -> descending key (firstn n l).
Proof.
  unfold descending. revert l.
  induction n as [|n IH]; intros [|x l] Hs; simpl; try constructor.
  - apply IH. now inversion Hs.
  - inversion Hs as [|? ? _ Hh]; subst.
    destruct n; simpl; [constructor|].
    destruct l; simpl; constructor. now inversion Hh.
Qed.

End MongoFacts.

Lemma firstn_incl {A} (n : nat) (l : list A) x : In x (firstn n l) -> In x l.
Proof.
  revert l. induction n as [|n IH]; intros [|y l]; simpl; try tauto.
  intros [->|H]; auto.
Qed.

Lemma firstn_NoDup {A} (n : nat) (l : list A) : NoDup l -> NoDup (firstn n l).
Proof.
  revert l. induction n as [|n IH]; intros [|y l] H; simpl; try constructor.
  - inversion H; subst. intros Hin. now apply firstn_incl in Hin.
  - inversion H; subst. now apply IH.
Qed.

(** ** The [$group] stage counts *)

Lemma tally_incr (k k' : Z) (acc : list TopEntry) :
  tally (Mongo.group_incr k acc) k' =
  (tally acc k' + if (k' =? k)%Z then 1 else 0)%nat.
Proof.
  unfold tally. induction acc as [|e acc IH]; simpl.
  - rewrite (Z.eqb_sym k k'). destruct (k' =? k); reflexivity.
  - destruct (_id e =? k) eqn:E; simpl.
    + apply Z.eqb_eq in E. subst k.
      rewrite (Z.eqb_sym k' (_id e)).
      destruct (_id e =? k'); simpl; lia.
    + destruct (_id e =? k'); simpl; rewrite IH; lia.
  Qed.

Lemma group_incr_ids (k k' : Z) (acc : list TopEntry) :
  In k' (map _id (Mongo.group_incr k acc)) <-> k' = k \/ In k' (map _id acc).
Proof.
  induction acc as [|e acc IH]; simpl.
  - intuition.
  - destruct (_id e =? k) eqn:E; simpl.
    + apply Z.eqb_eq in E. subst k. intuition.
    + rewrite IH. intuition.
Qed.

Lemma group_incr_NoDup (k : Z) (acc : list TopEntry) :
  NoDup (map _id acc) -> NoDup (map _id (Mongo.group_incr k acc)).
Proof.
  induction acc as [|e acc IH]; simpl; intros H.
  - repeat constructor. intros [].
  - inversion H; subst. destruct (_id e =? k) eqn:E; simpl.
    + now constructor.
    + constructor; [|now apply IH].
      rewrite group_incr_ids. apply Z.eqb_neq in E. intuition.
Qed.

Lemma tally_absent (acc : list TopEntry) (k : Z) :
  ~ In k (map _id acc) -> tally acc k = 0%nat.
Proof.
  unfold tally. induction acc as [|e acc IH]; simpl; intros H; [reflexivity|].
  destruct (_id e =? k) eqn:E.
  - apply Z.eqb_eq in E. tauto.
  - apply IH. tauto.
Qed.

Lemma tally_present (acc : list TopEntry) (e : TopEntry) :
  NoDup (map _id acc) -> In e acc -> tally acc (_id e) = count e.
Proof.
  induction acc as [|x acc IH]; simpl; intros Hn Hin; [contradiction|].
  inversion Hn; subst. unfold tally in *. simpl.
  destruct Hin as [->|Hin].
  - rewrite Z.eqb_refl. simpl.
    fold (tally acc (_id e)). rewrite tally_absent by assumption. lia.
  - destruct (_id x =? _id e) eqn:E.
    + apply Z.eqb_eq in E. exfalso. apply H1. rewrite E. now apply in_map.
    + now apply IH.
Qed.

Section GroupCount.
Variable D : Type.
Variable field : D -> Z.

Let step := fun (acc : list TopEntry) (d : D) => Mongo.group_incr (field d) acc.

Lemma group_fold_tally (col : list D) (acc : list TopEntry) (k : Z) :
  tally (fold_left step col acc) k =
  (tally acc k + occurrences k (map field col))%nat.
Proof.
  revert acc. induction col as [|d col IH]; intros acc; simpl.
  - unfold occurrences. simpl. lia.
  - rewrite IH. unfold step. rewrite tally_incr.
    unfold occurrences. simpl. destruct (k =? field d); simpl; lia.
Qed.

Lemma group_fold_NoDup (col : list D) (acc : list TopEntry) :
  NoDup (map _id acc) -> NoDup (map _id (fold_left step col acc)).
Proof.
  revert acc. induction col as [|d col IH]; intros acc H; simpl; [assumption|].
  apply IH. now apply group_incr_NoDup.
Qed.

Lemma group_count_NoDup (col : list D) :
  NoDup (map _id (Mongo.group_count field col)).
Proof. apply group_fold_NoDup. constructor. Qed.

Lemma group_count_counts (col : list D) (e : TopEntry) :
  In e (Mongo.group_count field col) ->
  count e = occurrences (_id e) (map field col).
Proof.
  intros Hin. pose proof (group_count_NoDup col) as Hn.
  transitivity (tally (Mongo.group_count field col) (_id e)).
  - symmetry. apply tally_present; assumption.
  - unfold Mongo.group_count. fold step. now rewrite group_fold_tally.
Qed.
End GroupCount.

Lemma occurrences_map {D} (field : D -> Z) (k : Z) (col : list D) :
  occurrences k (map field col) =
  List.length (filter (fun d => field d =? k) col).
Proof.
  unfold occurrences. induction col as [|d col IH]; simpl; [reflexivity|].
  rewrite (Z.eqb_sym k (field d)). destruct (field d =? k); simpl; congruence.
Qed.

(* ------------------------------------------------------------------ *)
(** ** The database functions *)

Lemma filter_app_length {A} (f : A -> bool) (l1 l2 : list A) :
  List.length (filter f (l1 ++ l2)%list) =
  (List.length (filter f l1) + List.length (filter f l2))%nat.
Proof. now rewrite filter_app, length_app. Qed.

Lemma get_warnings_length (u : Z) (d : DB) :
  List.length (get_warnings u d) = total_warnings u d.
Proof. unfold get_warnings, total_warnings, Mongo.find. apply sort_desc_length. Qed.

Lemma get_warnings_sorted (u : Z) (d : DB) :
  descending WarningDoc.timestamp (get_warnings u d).
Proof. apply sort_desc_sorted. Qed.

Lemma get_warnings_In (u : Z) (d : DB) (w : WarningDoc.t) :
  In w (get_warnings u d) <-> In w (warnings_col d) /\ WarningDoc.user_id w = u.
Proof.
  unfold get_warnings, Mongo.find.
  rewrite <- (Permutation_in' (eq_refl w) (sort_desc_perm WarningDoc.timestamp _)).
  rewrite filter_In, Z.eqb_eq. reflexivity.
Qed.

Lemma record_warnings_cols (calls : list Insert) (d : DB) :
  users_col (record_warnings calls d) = users_col d /\
  groups_col (record_warnings calls d) = groups_col d /\
  warnings_col (record_warnings calls d) =
    (warnings_col d ++
     map (fun c => WarningDoc.mk (ins_user_id c) (ins_chat_id c) (ins_now c) (ins_reason c))
         calls)%list.
Proof.
  revert d. induction calls as [|c calls IH]; intros d; simpl.
  - now rewrite app_nil_r.
  - destruct (IH (add_warning (ins_user_id c) (ins_chat_id c) (ins_reason c) (ins_now c) d))
      as (Hu & Hg & Hw).
    unfold record_warnings in *. rewrite Hu, Hg, Hw. simpl.
    unfold Mongo.insert_one. now rewrite <- app_assoc.
Qed.

Lemma total_warnings_record (u : Z) (calls : list Insert) (d : DB) :
  total_warnings u (record_warnings calls d) =
  (total_warnings u d + inserts_for u calls)%nat.
Proof.
  unfold total_warnings, inserts_for.
  destruct (record_warnings_cols calls d) as (_ & _ & ->).
  rewrite filter_app_length. f_equal.
  induction calls as [|c calls IH]; simpl; [reflexivity|].
  destruct (ins_user_id c =? u); simpl; congruence.
Qed.

(** C6. After any sequence of [add_warning] calls (for any users, chats,
    reasons and clock readings), [get_warnings u] has one element more per
    call made for [u], it is sorted by timestamp, newest first, and it
    holds exactly the warning documents of [u]; from the empty database
    its length is the number of calls made for [u]. *)
Theorem get_warnings_after_inserts (u : Z) (calls : list Insert) (d : DB) :
  List.length (get_warnings u (record_warnings calls d)) =
    (List.length (get_warnings u d) + inserts_for u calls)%nat /\
  List.length (get_warnings u (record_warnings calls empty_db)) =
    inserts_for u calls /\
  descending WarningDoc.timestamp (get_warnings u (record_warnings calls d)) /\
  (forall w, In w (get_warnings u (record_warnings calls d)) <->
             In w (warnings_col (record_warnings calls d)) /\
             WarningDoc.user_id w = u).
Proof.
  split; [|split; [|split]].
  - now rewrite !get_warnings_length, total_warnings_record.
  - now rewrite get_warnings_length, total_warnings_record.
  - apply get_warnings_sorted.
  - intros w. apply get_warnings_In.
Qed.

Lemma filter_none {A} (f : A -> bool) (l : list A) :
  (forall x, In x l -> f x = false) -> filter f l = [].
Proof.
  induction l as [|x l IH]; simpl; intros H; [reflexivity|].
  rewrite (H x) by now left. apply IH. intros y Hy. apply H. now right.
Qed.

Lemma filter_all {A} (f : A -> bool) (l : list A) :
  (forall x, In x l -> f x = true) -> filter f l = l.
Proof.
  induction l as [|x l IH]; simpl; intros H; [reflexivity|].
  rewrite (H x) by now left. f_equal. apply IH. intros y Hy. apply H. now right.
Qed.

(** C7. After [clear_warnings u], [get_warnings u] is empty, and a second
    [clear_warnings u] leaves the database as the first one left it. The
    function is total: it cannot fail on any database. *)
Theorem clear_warnings_empties_and_idempotent (u : Z) (d : DB) :
  get_warnings u (clear_warnings u d) = [] /\
  clear_warnings u (clear_warnings u d) = clear_warnings u d /\
  get_warnings u (clear_warnings u (clear_warnings u d)) = [].
Proof.
  assert (Hnone : forall d', get_warnings u (clear_warnings u d') = []).
  { intros d'. unfold get_warnings, clear_warnings, Mongo.find, Mongo.delete_many.
    simpl. rewrite filter_none; [reflexivity|].
    intros w Hw. apply filter_In in Hw. destruct Hw as [_ Hw].
    now destruct (WarningDoc.user_id w =? u). }
  assert (Hidem : clear_warnings u (clear_warnings u d) = clear_warnings u d).
  { unfold clear_warnings, Mongo.delete_many. simpl. f_equal.
    apply filter_all. intros w Hw. apply filter_In in Hw. tauto. }
  repeat split; auto.
Qed.

Lemma occurrences_pos (k : Z) (keys : list Z) :
  In k keys -> (1 <= occurrences k keys)%nat.
Proof.
  unfold occurrences. induction keys as [|x keys IH]; simpl; [tauto|].
  intros [->|H].
  - rewrite Z.eqb_refl. simpl. lia.
  - destruct (k =? x); simpl; auto with arith.
Qed.

Lemma group_count_ids {D} (field : D -> Z) (col : list D) (k : Z) :
  In k (map _id (Mongo.group_count field col)) -> In k (map field col).
Proof.
  unfold Mongo.group_count.
  enough (H : forall acc,
             In k (map _id (fold_left (fun acc d => Mongo.group_incr (field d) acc) col acc)) ->
             In k (map _id acc) \/ In k (map field col)).
  { intros Hin. destruct (H [] Hin) as [[]|]; assumption. }
  induction col as [|d col IH]; intros acc Hin; simpl in *; [now left|].
  destruct (IH _ Hin) as [Hacc|Hcol]; [|now right; right].
  apply group_incr_ids in Hacc. destruct Hacc as [->|Hacc]; auto.
Qed.

Lemma Sorted_weaken {A} (R R' : A -> A -> Prop) (l : list A) :
  (forall a b, R a b -> R' a b) -> Sorted R l -> Sorted R' l.
Proof.
  intros HR. induction 1 as [|a l Hs IH Hh]; constructor; [assumption|].
  destruct Hh; constructor. now apply HR.
Qed.

(** C8. Whatever [n] and the database, a list returned by
    [get_top_warned_users n] has at most [n] entries, no user twice, each
    entry pairs a user id with the number of warning documents of that user
    over all chats, and the counts never increase along the list. A list
    is returned for every [n] the [$limit] stage accepts, the default 10
    among them. *)
Theorem get_top_warned_users_spec (n : Z) (d : DB) :
  match get_top_warned_users n d with
  | Ret top =>
      Z.of_nat (List.length top) <= n /\
      NoDup (map _id top) /\
      (forall e, In e top ->
         count e = total_warnings (_id e) d /\ (1 <= count e)%nat) /\
      Sorted (fun a b => (count b <= count a)%nat) top
  | Raise _ => n < 1 \/ 2 ^ 63 <= n
  end /\
  exists top, get_top_warned_users default_limit d = Ret top.
Proof.
  split; [|eexists; unfold get_top_warned_users; reflexivity].
  unfold get_top_warned_users, Mongo.valid_limit.
  destruct (1 <=? n) eqn:E1; [|left; now apply Z.leb_gt in E1].
  destruct (n <? 2 ^ 63) eqn:E2; [|right; now apply Z.ltb_ge in E2].
  apply Z.leb_le in E1. cbv [andb].
  set (groups := Mongo.group_count WarningDoc.user_id (warnings_col d)).
  set (key := fun e : TopEntry => Z.of_nat (count e)).
  pose proof (sort_desc_perm key groups) as Hperm.
  assert (Hin : forall e, In e (firstn (Z.to_nat n) (Mongo.sort_desc key groups)) ->
                          In e groups).
  { intros e H. apply firstn_incl in H.
    now apply (Permutation_in _ (Permutation_sym Hperm)) in H. }
  split; [|split; [|split]].
  - rewrite length_firstn. lia.
  - rewrite <- firstn_map. apply firstn_NoDup.
    apply (Permutation_NoDup (Permutation_map _id Hperm)).
    apply group_count_NoDup.
  - intros e H. apply Hin in H.
    pose proof (group_count_counts _ _ _ H) as Hc.
    rewrite Hc. split; [apply occurrences_map|].
    apply occurrences_pos, group_count_ids. now apply in_map.
  - apply Sorted_weaken with (R := fun a b => key b <= key a).
    + unfold key. intros a b. lia.
    + apply descending_firstn, sort_desc_sorted.
Qed.

Lemma warned_user_ids_spec (d : DB) (k : Z) :
  In k (warned_user_ids d) <->
  exists w, In w (warnings_col d) /\ WarningDoc.user_id w = k.
Proof.
  unfold warned_user_ids, Mongo.distinct. rewrite nodup_In, in_map_iff.
  split; intros (w & H1 & H2); exists w; tauto.
Qed.

Lemma existsb_Zeqb (k : Z) (l : list Z) : existsb (Z.eqb k) l = true <-> In k l.
Proof.
  rewrite existsb_exists. split.
  - intros (x & Hx & E). apply Z.eqb_eq in E. now subst.
  - intros H. exists k. split; [assumption|apply Z.eqb_refl].
Qed.

(** C9. In every database, [get_users_with_no_warnings] is the tracked
    users minus the distinct user ids of the warning documents: a user
    document is returned exactly when it is tracked and its id is not among
    those ids, which are the ids that occur in some warning, each once; so
    no returned user has a warning document. *)
Theorem get_users_with_no_warnings_spec (d : DB) :
  (forall u, In u (get_users_with_no_warnings d) <->
             In u (users_col d) /\ ~ In (UserDoc.user_id u) (warned_user_ids d)) /\
  (NoDup (warned_user_ids d) /\
   forall k, In k (warned_user_ids d) <->
             exists w, In w (warnings_col d) /\ WarningDoc.user_id w = k) /\
  (forall u, In u (get_users_with_no_warnings d) ->
             total_warnings (UserDoc.user_id u) d = 0%nat /\
             ~ exists w, In w (warnings_col d) /\
                         WarningDoc.user_id w = UserDoc.user_id u).
Proof.
  assert (Hdiff : forall u, In u (get_users_with_no_warnings d) <->
             In u (users_col d) /\ ~ In (UserDoc.user_id u) (warned_user_ids d)).
  { intros u. unfold get_users_with_no_warnings, users_not_in, Mongo.find.
    rewrite filter_In, negb_true_iff, <- not_true_iff_false, existsb_Zeqb.
    reflexivity. }
  split; [exact Hdiff|]. split.
  - split; [apply NoDup_nodup|apply warned_user_ids_spec].
  - intros u Hu. apply Hdiff in Hu. destruct Hu as [_ Hu].
    rewrite warned_user_ids_spec in Hu. split; [|exact Hu].
    unfold total_warnings. rewrite filter_none; [reflexivity|].
    intros w Hw. apply Z.eqb_neq. intros E. apply Hu. now exists w.
Qed.

(* ------------------------------------------------------------------ *)
(** ** Runs *)

Lemma skipn_length_app {A} (l evs : list A) :
  skipn (List.length l) (l ++ evs) = evs.
Proof. induction l; simpl; auto. Qed.

Lemma run_facts {A} (m : M A) (w : World) (r : Res A) (d : DB) (evs : list Event) :
  m w = (r, mkWorld d (history w ++ evs)) ->
  outcome m w = r /\ db (after m w) = d /\ events_of m w = evs.
Proof.
  intros E. unfold events_of, outcome, after. rewrite E. simpl.
  repeat split. apply skipn_length_app.
Qed.

Lemma find_recent_none (u t : Z) (d : DB) :
  Mongo.find_one (recent_warning_of u t) (warnings_col d) = None <->
  ~ has_recent_warning u t d.
Proof.
  unfold Mongo.find_one, has_recent_warning, recent_warning_of. split.
  - intros E (w & Hin & Hu & Ht).
    pose proof (find_none _ _ E w Hin) as F. simpl in F.
    apply andb_false_iff in F. destruct F as [F|F].
    + apply Z.eqb_neq in F. contradiction.
    + apply Z.leb_gt in F. lia.
  - intros H. destruct (find _ _) as [w|] eqn:E; [|reflexivity].
    exfalso. apply H. apply find_some in E. destruct E as [Hin E].
    apply andb_true_iff in E. destruct E as [E1 E2].
    exists w. rewrite Z.eqb_eq in E1. rewrite Z.leb_le in E2. tauto.
Qed.

Section SweepRuns.
Variable env : Env.t.

Lemma remove_from_group_run (c u : Z) (w : World) :
  exists evs,
    remove_from_group env c u w = (Ret tt, mkWorld (db w) (history w ++ evs)) /\
    kick_events c u evs.
Proof.
  unfold remove_from_group, try_except, bind, ban_chat_member,
    unban_chat_member, emit.
  destruct (Env.ban_chat_member env (history w) c u) eqn:Eb.
  - destruct (Env.unban_chat_member env
                (history (record (BanChatMember c u true) w)) c u) eqn:Eu;
      eexists; (split; [|constructor]); unfold record; simpl;
      now rewrite <- !app_assoc.
  - eexists. split; [|apply kick_ban_failed]. unfold record. simpl.
    now rewrite <- !app_assoc.
Qed.

Lemma groups_run (u : Z) (groups : list GroupDoc.t) (w : World) :
  exists evs,
    for_each groups (fun g => remove_from_group env (GroupDoc.chat_id g) u) w =
      (Ret tt, mkWorld (db w) (history w ++ evs)) /\
    groups_events u groups evs.
Proof.
  revert w. induction groups as [|g groups IH]; intros w; simpl.
  - exists []. split; [|constructor].
    unfold ret. rewrite app_nil_r. now destruct w.
  - destruct (remove_from_group_run (GroupDoc.chat_id g) u w) as (e1 & E1 & K1).
    unfold bind. rewrite E1.
    destruct (IH (mkWorld (db w) (history w ++ e1))) as (e2 & E2 & K2).
    exists (e1 ++ e2)%list. split; [|now constructor].
    rewrite E2. simpl. now rewrite app_assoc.
Qed.

Lemma sweep_user_run (t : Z) (user : UserDoc.t) (w : World) :
  exists r evs,
    sweep_user env t user w = (r, mkWorld (db w) (history w ++ evs)) /\
    user_events t (db w) user r evs /\
    (store_always_up env -> r = Ret tt).
Proof.
  unfold sweep_user, bind, query.
  destruct (Env.store_up env (history w) Warnings) eqn:Ew.
  - destruct (Mongo.find_one _ _) as [doc|] eqn:Ef.
    + exists (Ret tt), [Store Warnings true]. repeat split.
      apply user_recent.
      destruct (find_recent_none (UserDoc.user_id user) t (db w)) as [_ H].
      unfold has_recent_warning.
      apply find_some in Ef. destruct Ef as [Hin Ef].
      apply andb_true_iff in Ef. destruct Ef as [E1 E2].
      exists doc. rewrite Z.eqb_eq in E1. rewrite Z.leb_le in E2. tauto.
    + apply find_recent_none in Ef.
      destruct (Env.store_up env (history (record (Store Warnings true) w)) Groups) eqn:Eg.
      * destruct (groups_run (UserDoc.user_id user) (groups_col (db w))
                    (record (Store Groups true) (record (Store Warnings true) w)))
          as (evs & E & G).
        exists (Ret tt), (Store Warnings true :: Store Groups true :: evs).
        split; [|split; [now constructor|reflexivity]].
        simpl in *. rewrite E. unfold record. simpl. now rewrite <- !app_assoc.
      * exists (Raise PyMongoError), [Store Warnings true; Store Groups false].
        split; [|split; [now constructor|]].
        -- unfold record. simpl. now rewrite <- !app_assoc.
        -- intros Hup. now rewrite Hup in Eg.
  - exists (Raise PyMongoError), [Store Warnings false].
    split; [reflexivity|]. split; [constructor|].
    intros Hup. now rewrite Hup in Ew.
Qed.

Lemma users_run (t : Z) (users : list UserDoc.t) (w : World) :
  exists r evs,
    for_each users (sweep_user env t) w = (r, mkWorld (db w) (history w ++ evs)) /\
    users_events t (db w) users r evs /\
    (store_always_up env -> r = Ret tt).
Proof.
  revert w. induction users as [|user users IH]; intros w; simpl.
  - exists (Ret tt), []. split; [|split; [constructor|reflexivity]].
    unfold ret. rewrite app_nil_r. now destruct w.
  - destruct (sweep_user_run t user w) as (r1 & e1 & E1 & U1 & Hup1).
    unfold bind. rewrite E1. destruct r1 as [[]|e].
    + destruct (IH (mkWorld (db w) (history w ++ e1))) as (r2 & e2 & E2 & U2 & Hup2).
      exists r2, (e1 ++ e2)%list. split; [|split].
      * rewrite E2. simpl. now rewrite app_assoc.
      * now apply users_cons.
      * exact Hup2.
    + exists (Raise e), e1. split; [reflexivity|]. split.
      * now apply users_stop.
      * intros Hup. specialize (Hup1 Hup). discriminate.
Qed.

Lemma sweep_cycle_run (w : World) :
  exists r evs,
    sweep_cycle env w = (r, mkWorld (db w) (history w ++ evs)) /\
    cycle_events (Env.time_time env (history w)) (db w) r evs /\
    (store_always_up env -> r = Ret tt).
Proof.
  unfold sweep_cycle, bind, time_time, query, sleep, emit.
  set (now := Env.time_time env (history w)).
  destruct (Env.store_up env (history (record (TimeTime now) w)) Users) eqn:Eu.
  - change (now - 24 * 60 * 60) with (now - 86400).
    destruct (users_run (now - 86400) (users_col (db (record (TimeTime now) w)))
                (record (Store Users true) (record (TimeTime now) w)))
      as (r & evs & E & U & Hup).
    simpl in E, U. change (db (record (TimeTime now) w)) with (db w).
    rewrite E. destruct r as [[]|e].
    + exists (Ret tt), (TimeTime now :: Store Users true :: evs ++ [Sleep 3600])%list.
      split; [|split; [now constructor|reflexivity]].
      unfold record. simpl. now rewrite <- !app_assoc.
    + exists (Raise e), (TimeTime now :: Store Users true :: evs).
      split; [|split; [now apply cycle_stopped|exact Hup]].
      now rewrite <- !app_assoc.
  - exists (Raise PyMongoError), [TimeTime now; Store Users false].
    split; [|split; [constructor|]].
    + unfold record. simpl. now rewrite <- !app_assoc.
    + intros Hup. now rewrite Hup in Eu.
Qed.
End SweepRuns.

(* ------------------------------------------------------------------ *)
(** ** Reading the task's history *)

Lemma calls_on_app (c u : Z) (e1 e2 : list Event) :
  calls_on c u (e1 ++ e2) = (calls_on c u e1 ++ calls_on c u e2)%list.
Proof. apply filter_app. Qed.

Lemma kick_calls_same (c u : Z) (es : list Event) :
  kick_events c u es -> one_removal_attempt c u (calls_on c u es).
Proof.
  unfold one_removal_attempt.
  intros K; inversion K; subst; unfold calls_on; simpl;
    rewrite !Z.eqb_refl; simpl; tauto.
Qed.

Lemma kick_calls_other (c u c' u' : Z) (es : list Event) :
  kick_events c' u' es -> c' <> c \/ u' <> u -> calls_on c u es = [].
Proof.
  intros K Hne.
  assert (E : (c' =? c) && (u' =? u) = false).
  { apply andb_false_iff. rewrite !Z.eqb_neq. exact Hne. }
  inversion K; subst; unfold calls_on; simpl; rewrite E; reflexivity.
Qed.

Lemma groups_calls_other_user (c u u' : Z) groups (evs : list Event) :
  groups_events u' groups evs -> u' <> u -> calls_on c u evs = [].
Proof.
  intros G Hne. induction G as [|g rest e1 e2 K _ IH]; [reflexivity|].
  rewrite calls_on_app, IH, app_nil_r.
  eapply kick_calls_other; eauto.
Qed.

Lemma groups_calls_absent (c u u' : Z) groups (evs : list Event) :
  groups_events u' groups evs -> ~ In c (map GroupDoc.chat_id groups) ->
  calls_on c u evs = [].
Proof.
  intros G. induction G as [|g rest e1 e2 K _ IH]; intros Hn; [reflexivity|].
  simpl in Hn. rewrite calls_on_app, IH, app_nil_r by tauto.
  eapply kick_calls_other; [exact K|]. left. intros E. apply Hn. now left.
Qed.

Lemma groups_calls_present (u : Z) groups (evs : list Event) (g : GroupDoc.t) :
  groups_events u groups evs ->
  NoDup (map GroupDoc.chat_id groups) -> In g groups ->
  one_removal_attempt (GroupDoc.chat_id g) u (calls_on (GroupDoc.chat_id g) u evs).
Proof.
  intros G. induction G as [|g0 rest e1 e2 K G IH]; intros Hnd Hin; [contradiction|].
  simpl in Hnd. inversion Hnd as [|? ? Hfresh Hrest]; subst.
  rewrite calls_on_app. destruct Hin as [->|Hin].
  - rewrite (groups_calls_absent _ u G Hfresh), app_nil_r.
    now apply kick_calls_same.
  - rewrite (kick_calls_other (c := GroupDoc.chat_id g) (u := u) K); [now apply IH|].
    left. intros E. apply Hfresh. rewrite E. now apply in_map.
Qed.

Lemma groups_ban_attempted (u : Z) groups (evs : list Event) (g : GroupDoc.t) :
  groups_events u groups evs -> In g groups ->
  exists ok, In (BanChatMember (GroupDoc.chat_id g) u ok) evs.
Proof.
  intros G. induction G as [|g0 rest e1 e2 K G IH]; intros Hin; [contradiction|].
  destruct Hin as [->|Hin].
  - inversion K; subst; eexists; apply in_or_app; left; simpl; eauto.
  - destruct (IH Hin) as [ok H]. exists ok. apply in_or_app. now right.
Qed.

Lemma failures_logged_app (e1 e2 : list Event) :
  failures_logged e1 -> failures_logged e2 -> failures_logged (e1 ++ e2).
Proof.
  unfold failures_logged. intros H1 H2 c u H.
  rewrite !in_app_iff in *. specialize (H1 c u). specialize (H2 c u). tauto.
Qed.

Lemma failures_logged_quiet (e : Event) (evs : list Event) :
  (forall c u ok, e <> BanChatMember c u ok /\ e <> UnbanChatMember c u ok) ->
  failures_logged evs -> failures_logged (e :: evs).
Proof.
  unfold failures_logged. intros Hq H c u [[E|Hin]|[E|Hin]]; simpl.
  - now destruct (Hq c u false).
  - right. apply H. now left.
  - now destruct (Hq c u false).
  - right. apply H. now right.
Qed.

Ltac not_a_call := intros; split; discriminate.

Lemma failures_logged_kick (c u : Z) (es : list Event) :
  kick_events c u es -> failures_logged es.
Proof.
  intros K c' u' H. inversion K; subst; simpl in *;
    repeat match goal with
           | H : _ \/ _ |- _ => destruct H
           | H : False |- _ => destruct H
           | H : _ = _ |- _ => inversion H; clear H; subst
           end; tauto.
Qed.

Lemma failures_logged_groups (u : Z) groups (evs : list Event) :
  groups_events u groups evs -> failures_logged evs.
Proof.
  induction 1 as [|g rest e1 e2 K _ IH].
  - intros c x [[]|[]].
  - apply failures_logged_app; [eapply failures_logged_kick; eauto|assumption].
Qed.

Lemma body_events_groups (u : Z) groups (evs : list Event) :
  groups_events u groups evs ->
  Forall (fun e => sweep_body_event e = true /\ store_failure e = false) evs.
Proof.
  induction 1 as [|g rest e1 e2 K _ IH]; [constructor|].
  apply Forall_app. split; [|assumption].
  inversion K; subst; repeat constructor.
Qed.

Section UserEvents.
Variable t : Z.
Variable d : DB.

Lemma user_calls_other (c u : Z) user r (evs : list Event) :
  user_events t d user r evs -> UserDoc.user_id user <> u ->
  calls_on c u evs = [].
Proof.
  intros U Hne. inversion U; subst; try reflexivity.
  unfold calls_on. simpl. eapply groups_calls_other_user; eauto.
Qed.

Lemma users_calls_absent (c u : Z) users r (evs : list Event) :
  users_events t d users r evs -> ~ In u (map UserDoc.user_id users) ->
  calls_on c u evs = [].
Proof.
  intros U. induction U as [|user rest r e1 e2 U1 _ IH|user rest e e1 U1];
    intros Hn; simpl in Hn.
  - reflexivity.
  - rewrite calls_on_app, IH, app_nil_r by tauto.
    eapply user_calls_other; eauto.
  - eapply user_calls_other; eauto.
Qed.

(** In a completed loop every user has its own stretch of events, and
    when user ids are not repeated the calls on that user are all in it. *)
Lemma users_events_split users (evs : list Event) (user : UserDoc.t) :
  users_events t d users (Ret tt) evs -> In user users ->
  exists pre e1 post,
    evs = (pre ++ e1 ++ post)%list /\
    user_events t d user (Ret tt) e1 /\
    (NoDup (map UserDoc.user_id users) ->
     forall c, calls_on c (UserDoc.user_id user) evs =
               calls_on c (UserDoc.user_id user) e1).
Proof.
  intros U. remember (Ret tt) as r eqn:Er. revert Er.
  induction U as [|u0 rest r e1 e2 U1 U2 IH|u0 rest e e1 U1]; intros Er Hin;
    [contradiction|subst r|discriminate].
  destruct Hin as [->|Hin].
  - exists [], e1, e2. split; [reflexivity|]. split; [assumption|].
    intros Hnd c. inversion Hnd as [|? ? Hfresh _]; subst.
    assert (Hz : calls_on c (UserDoc.user_id user) e2 = [])
      by (eapply users_calls_absent; eauto).
    now rewrite calls_on_app, Hz, app_nil_r.
  - destruct (IH eq_refl Hin) as (pre & eu & post & -> & Uu & Hcalls).
    exists (e1 ++ pre)%list, eu, post.
    split; [now rewrite app_assoc|]. split; [assumption|].
    intros Hnd c. inversion Hnd as [|? ? Hfresh Hrest]; subst.
    assert (Hz : calls_on c (UserDoc.user_id user) e1 = []).
    { eapply user_calls_other; [exact U1|].
      intros E. apply Hfresh. rewrite E. now apply in_map. }
    now rewrite calls_on_app, (Hcalls Hrest c), Hz.
Qed.

Lemma failures_logged_user user r (evs : list Event) :
  user_events t d user r evs -> failures_logged evs.
Proof.
  intros U. inversion U; subst;
    repeat (apply failures_logged_quiet; [not_a_call|]);
    try (intros c x [[]|[]]).
  eapply failures_logged_groups; eauto.
Qed.

Lemma failures_logged_users users r (evs : list Event) :
  users_events t d users r evs -> failures_logged evs.
Proof.
  induction 1 as [|user rest r e1 e2 U1 _ IH|user rest e e1 U1].
  - intros c x [[]|[]].
  - apply failures_logged_app; [eapply failures_logged_user; eauto|assumption].
  - eapply failures_logged_user; eauto.
Qed.

(** A loop body that returns had no failed round trip; one that raises
    raises the store's exception and ends with the failed round trip. *)
Lemma user_events_outcome user r (evs : list Event) :
  user_events t d user r evs ->
  Forall (fun e => sweep_body_event e = true) evs /\
  match r with
  | Ret _ => Forall (fun e => store_failure e = false) evs
  | Raise e =>
      e = PyMongoError /\
      exists evs0 col, evs = (evs0 ++ [Store col false])%list /\
                       Forall (fun e => store_failure e = false) evs0
  end.
Proof.
  intros U. inversion U; subst.
  - split; repeat constructor.
  - pose proof (body_events_groups H0) as B.
    split; repeat constructor;
      eapply Forall_impl; try exact B; simpl; tauto.
  - split; [repeat constructor|]. split; [reflexivity|].
    exists [], Warnings. split; [reflexivity|constructor].
  - split; [repeat constructor|]. split; [reflexivity|].
    exists [Store Warnings true], Groups. split; [reflexivity|repeat constructor].
Qed.

Lemma users_events_outcome users r (evs : list Event) :
  users_events t d users r evs ->
  Forall (fun e => sweep_body_event e = true) evs /\
  match r with
  | Ret _ => Forall (fun e => store_failure e = false) evs
  | Raise e =>
      e = PyMongoError /\
      exists evs0 col, evs = (evs0 ++ [Store col false])%list /\
                       Forall (fun e => store_failure e = false) evs0
  end.
Proof.
  induction 1 as [|user rest r e1 e2 U1 _ IH|user rest e e1 U1].
  - split; constructor.
  - destruct (user_events_outcome U1) as [B1 F1]. destruct IH as [B2 F2].
    split; [apply Forall_app; tauto|].
    destruct r as [[]|e].
    + apply Forall_app; tauto.
    + destruct F2 as (-> & evs0 & col & -> & F0). split; [reflexivity|].
      exists (e1 ++ evs0)%list, col. split; [now rewrite app_assoc|].
      apply Forall_app; tauto.
  - exact (user_events_outcome U1).
Qed.
End UserEvents.

(* ------------------------------------------------------------------ *)
(** ** Reachable databases keep one document per user and per group *)

Section Upsert.
Variable D : Type.
Variable key : D -> Z.
Variable k : Z.
Variable fresh : D.
Hypothesis fresh_key : key fresh = k.

Let upsert := Mongo.update_one_upsert (fun d => key d =? k) (fun _ => fresh) fresh.

Lemma upsert_keys_in (col : list D) (x : Z) :
  In x (map key (upsert col)) <-> x = k \/ In x (map key col).
Proof.
  unfold upsert. induction col as [|d col IH]; simpl.
  - rewrite fresh_key. intuition.
  - destruct (key d =? k) eqn:E; simpl.
    + apply Z.eqb_eq in E. rewrite fresh_key, E. intuition.
    + rewrite IH. intuition.
Qed.

Lemma upsert_keys_NoDup (col : list D) :
  NoDup (map key col) -> NoDup (map key (upsert col)).
Proof.
  unfold upsert. induction col as [|d col IH]; simpl; intros H.
  - repeat constructor. intros [].
  - apply NoDup_cons_iff in H. destruct H as [Hx Hrest].
    destruct (key d =? k) eqn:E; simpl.
    + apply Z.eqb_eq in E. rewrite fresh_key, <- E. now constructor.
    + constructor; [|now apply IH].
      fold (upsert col). rewrite upsert_keys_in. apply Z.eqb_neq in E. intuition.
Qed.
End Upsert.

Lemma reachable_unique (d : DB) :
  reachable d ->
  NoDup (map UserDoc.user_id (users_col d)) /\
  NoDup (map GroupDoc.chat_id (groups_col d)).
Proof.
  induction 1 as [|user d _ [IHu IHg]|chat d _ [IHu IHg]| |]; simpl; try tauto.
  - split; constructor.
  - split; [|assumption]. now apply upsert_keys_NoDup.
  - split; [assumption|]. now apply upsert_keys_NoDup.
Qed.

Lemma add_user_tracked (user : User.t) (d : DB) :
  In (User.id user) (map UserDoc.user_id (users_col (add_user user d))).
Proof. unfold add_user. simpl. apply upsert_keys_in; [reflexivity|now left]. Qed.

(* ------------------------------------------------------------------ *)
(** ** The background task *)

Lemma sweep_cycle_completes (env : Env.t) (w : World) :
  store_always_up env ->
  exists evs,
    outcome (sweep_cycle env) w = Ret tt /\
    db (after (sweep_cycle env) w) = db w /\
    events_of (sweep_cycle env) w =
      (TimeTime (Env.time_time env (history w)) :: Store Users true :: evs ++ [Sleep 3600])%list /\
    users_events (Env.time_time env (history w) - 86400) (db w) (users_col (db w))
                 (Ret tt) evs.
Proof.
  intros Hup. destruct (sweep_cycle_run env w) as (r & evs & E & C & Hr).
  rewrite (Hr Hup) in *. apply run_facts in E. destruct E as (Hout & Hdb & Hev).
  inversion C; subst. eexists. repeat split; eauto.
Qed.

(** C1 (as amended). In one pass of [auto_ban_inactive_users] over a
    database the program can build, with the store answering, for every
    tracked user and every tracked group: if some warning of the user, in
    whatever chat, has timestamp >= now - 86400, no ban or unban call is
    made for that user, on that group or on any chat; otherwise exactly one
    ban call is made on the group, followed by exactly one unban call when
    the ban call succeeded and by none when it failed. So a call is made
    on the group for the user exactly when the user has no recent warning. *)
Theorem sweep_cycle_removals (env : Env.t) (w : World)
    (user : UserDoc.t) (group : GroupDoc.t) :
  reachable (db w) ->
  store_always_up env ->
  In user (users_col (db w)) ->
  In group (groups_col (db w)) ->
  let now := Env.time_time env (history w) in
  let evs := events_of (sweep_cycle env) w in
  let calls := calls_on (GroupDoc.chat_id group) (UserDoc.user_id user) evs in
  let recent := has_recent_warning (UserDoc.user_id user) (now - 86400) (db w) in
  outcome (sweep_cycle env) w = Ret tt /\
  (recent -> forall c, calls_on c (UserDoc.user_id user) evs = []) /\
  (~ recent ->
   one_removal_attempt (GroupDoc.chat_id group) (UserDoc.user_id user) calls) /\
  (calls <> [] <-> ~ recent).
Proof.
  intros Hreach Hup Hu Hg now evs0 calls recent.
  destruct (reachable_unique Hreach) as [Hnu Hng].
  destruct (sweep_cycle_completes w Hup) as (evs & Hout & _ & Hev & U).
  destruct (users_events_split user U Hu) as (pre & e1 & post & _ & U1 & Hcalls).
  assert (Hc : forall c, calls_on c (UserDoc.user_id user) evs0 =
                         calls_on c (UserDoc.user_id user) e1).
  { intros c. unfold evs0. rewrite Hev. unfold calls_on at 1. simpl.
    fold (calls_on c (UserDoc.user_id user) (evs ++ [Sleep 3600])).
    rewrite calls_on_app. unfold calls_on at 2. simpl.
    rewrite app_nil_r. now apply Hcalls. }
  assert (Hyes : recent -> forall c, calls_on c (UserDoc.user_id user) evs0 = []).
  { intros Hr c. rewrite Hc. inversion U1; subst; [reflexivity|contradiction]. }
  assert (Hno : ~ recent ->
     one_removal_attempt (GroupDoc.chat_id group) (UserDoc.user_id user) calls).
  { intros Hr. unfold calls. rewrite Hc. inversion U1; subst; [contradiction|].
    unfold calls_on. simpl. eapply groups_calls_present; eauto. }
  split; [exact Hout|]. split; [exact Hyes|]. split; [exact Hno|].
  split.
  - intros Hne Hr. now apply Hne, Hyes.
  - intros Hr E0. destruct (Hno Hr) as [H|[H|H]]; rewrite H in E0; discriminate.
Qed.

(** C2. In one pass of the task with the store answering, whatever ban and
    unban calls fail: the pass runs to its [sleep], a ban call is made on
    every tracked group for every tracked user without a recent warning,
    and every failed ban or unban call has its [logger.warning] line. *)
Theorem sweep_cycle_survives_call_failures (env : Env.t) (w : World)
    (user : UserDoc.t) (group : GroupDoc.t) :
  store_always_up env ->
  In user (users_col (db w)) ->
  In group (groups_col (db w)) ->
  ~ has_recent_warning (UserDoc.user_id user)
      (Env.time_time env (history w) - 86400) (db w) ->
  let evs := events_of (sweep_cycle env) w in
  outcome (sweep_cycle env) w = Ret tt /\
  (exists ok, In (BanChatMember (GroupDoc.chat_id group) (UserDoc.user_id user) ok) evs) /\
  failures_logged evs /\
  In (Sleep 3600) evs.
Proof.
  intros Hup Hu Hg Hr evs0.
  destruct (sweep_cycle_completes w Hup) as (evs & Hout & _ & Hev & U).
  subst evs0. rewrite Hev. split; [exact Hout|].
  destruct (users_events_split user U Hu) as (pre & e1 & post & -> & U1 & _).
  split; [|split].
  - inversion U1; subst; [contradiction|].
    edestruct groups_ban_attempted as [ok Hin]; [eassumption|exact Hg|]. exists ok.
    right. right. rewrite !in_app_iff. left. right. left. right. now right.
  - repeat (apply failures_logged_quiet; [not_a_call|]).
    apply failures_logged_app; [eapply failures_logged_users; eauto|].
    apply failures_logged_quiet; [not_a_call|]. intros c x [[]|[]].
  - right. right. apply in_or_app. right. now left.
Qed.

Lemma sample_db0_reachable : reachable Sample.db0.
Proof. repeat constructor. Qed.

Lemma sample_store_up now status ban_ok unban_ok :
  store_always_up (Sample.env now true status ban_ok unban_ok).
Proof. intros h col. reflexivity. Qed.

Lemma sample_no_recent_warning (u t : Z) : ~ has_recent_warning u t Sample.db0.
Proof. intros (w & Hin & _). exact Hin. Qed.

(** Alice has no warning and every call succeeds: she is banned from G1 and
    unbanned, once. *)
Lemma sweep_cycle_removals_witness :
  reachable (db Sample.w0) /\
  store_always_up (Sample.env_ok None) /\
  In (user_doc Sample.alice) (users_col (db Sample.w0)) /\
  In (group_doc Sample.g1) (groups_col (db Sample.w0)) /\
  one_removal_attempt (-1001) 7
    (calls_on (-1001) 7 (events_of (sweep_cycle (Sample.env_ok None)) Sample.w0)).
Proof.
  assert (Hr : reachable (db Sample.w0)) by exact sample_db0_reachable.
  assert (Hs : store_always_up (Sample.env_ok None)) by apply sample_store_up.
  assert (Hu : In (user_doc Sample.alice) (users_col (db Sample.w0))) by (now left).
  assert (Hg : In (group_doc Sample.g1) (groups_col (db Sample.w0))) by (now left).
  repeat split; try assumption.
  destruct (@sweep_cycle_removals (Sample.env_ok None) Sample.w0
              (user_doc Sample.alice) (group_doc Sample.g1) Hr Hs Hu Hg)
    as (_ & _ & Hno & _).
  apply Hno, sample_no_recent_warning.
Defined.

(** Alice has no warning and the ban call fails in G1: the only call made
    on G1 for her is that ban; no unban call follows it. *)
Lemma sweep_cycle_failed_ban_has_no_unban :
  ~ has_recent_warning 7 (Sample.now - 86400) (db Sample.w0) /\
  outcome (sweep_cycle Sample.env_g1_ban_fails) Sample.w0 = Ret tt /\
  calls_on (-1001) 7 (events_of (sweep_cycle Sample.env_g1_ban_fails) Sample.w0) =
    [BanChatMember (-1001) 7 false].
Proof.
  split; [apply sample_no_recent_warning|]. split; vm_compute; reflexivity.
Qed.

(** Alice was warned an hour ago: the pass makes no ban or unban call. *)
Example sweep_cycle_spares_recently_warned :
  let d := add_warning 7 (-1001) "spam" (Sample.now - 3600) Sample.db0 in
  events_of (sweep_cycle (Sample.env_ok None)) (mkWorld d []) =
    [TimeTime Sample.now; Store Users true; Store Warnings true; Sleep 3600].
Proof. vm_compute. reflexivity. Qed.

(** The ban call fails in G1; the ban call on G2 is made all the same. *)
Lemma sweep_cycle_survives_call_failures_witness :
  store_always_up Sample.env_g1_ban_fails /\
  In (BanChatMember (-1001) 7 false)
     (events_of (sweep_cycle Sample.env_g1_ban_fails) Sample.w0) /\
  outcome (sweep_cycle Sample.env_g1_ban_fails) Sample.w0 = Ret tt /\
  (exists ok, In (BanChatMember (-1002) 7 ok)
                 (events_of (sweep_cycle Sample.env_g1_ban_fails) Sample.w0)) /\
  failures_logged (events_of (sweep_cycle Sample.env_g1_ban_fails) Sample.w0) /\
  In (Sleep 3600) (events_of (sweep_cycle Sample.env_g1_ban_fails) Sample.w0).
Proof.
  split; [apply sample_store_up|].
  split; [vm_compute; tauto|].
  apply (@sweep_cycle_survives_call_failures Sample.env_g1_ban_fails Sample.w0
           (user_doc Sample.alice) (group_doc Sample.g2)).
  - apply sample_store_up.
  - now left.
  - right. now left.
  - apply sample_no_recent_warning.
Defined.

Lemma cycle_events_outcome (now : Z) (d : DB) (r : Res unit) (evs : list Event) :
  cycle_events now d r evs ->
  match r with
  | Ret _ => Forall (fun e => store_failure e = false) evs
  | Raise e =>
      e = PyMongoError /\
      (exists evs0 col, evs = (evs0 ++ [Store col false])%list /\
                        Forall (fun e => store_failure e = false) evs0) /\
      Forall (fun e => sweep_body_event e = true \/ e = TimeTime now) evs
  end.
Proof.
  intros C. inversion C; subst.
  - destruct (users_events_outcome H) as [_ F]. simpl in F.
    repeat constructor. apply Forall_app. split; [assumption|repeat constructor].
  - split; [reflexivity|]. split.
    + exists [TimeTime now], Users. split; [reflexivity|repeat constructor].
    + constructor; [now right|]. constructor; [now left|constructor].
  - destruct (users_events_outcome H) as [B (-> & pre & col & -> & F)].
    split; [reflexivity|]. split.
    + exists (TimeTime now :: Store Users true :: pre), col.
      split; [reflexivity|repeat constructor; assumption].
    + constructor; [now right|]. constructor; [now left|].
      eapply Forall_impl; [|exact B]. simpl. tauto.
Qed.

(** C3 (as amended). When a round trip to the users, groups or warnings
    collection fails during a pass of the task, the failure is not caught
    inside the loop: [PyMongoError] leaves [auto_ban_inactive_users], so
    the task ends there. The failed round trip is the last thing the task
    does: it writes no log line for it, does not sleep and starts no other
    pass, however long the task would have run. The database is left as it
    was. *)
Theorem sweep_store_failure_ends_task (env : Env.t) (w : World) (col : Collection) :
  In (Store col false) (events_of (sweep_cycle env) w) ->
  let evs := events_of (sweep_cycle env) w in
  outcome (sweep_cycle env) w = Raise PyMongoError /\
  (exists evs0 col', evs = (evs0 ++ [Store col' false])%list /\
                     Forall (fun e => store_failure e = false) evs0) /\
  (forall s, ~ In (Sleep s) evs) /\
  (forall e, ~ In (LogError e) evs) /\
  (forall u c, ~ In (LogRemoveFailed u c PyMongoError) evs) /\
  db (after (sweep_cycle env) w) = db w /\
  forall fuel,
    auto_ban_inactive_users env (S fuel) w = sweep_cycle env w /\
    outcome (auto_ban_inactive_users env (S fuel)) w = Raise PyMongoError.
Proof.
  intros Hin evs. subst evs.
  destruct (sweep_cycle_run env w) as (r & evs & E & C & _).
  pose proof E as E'. apply run_facts in E'. destruct E' as (Hout & Hdb & Hev).
  rewrite Hev in *. rewrite Hout, Hdb.
  pose proof (cycle_events_outcome C) as O. destruct r as [[]|e].
  - rewrite Forall_forall in O. specialize (O _ Hin). discriminate.
  - destruct O as (-> & Hlast & Hbody). rewrite Forall_forall in Hbody.
    split; [reflexivity|]. split; [exact Hlast|].
    repeat split.
    + intros s H. destruct (Hbody _ H); discriminate.
    + intros e H. destruct (Hbody _ H); discriminate.
    + intros u c H. destruct (Hbody _ H); discriminate.
    + simpl. unfold bind. now rewrite E.
    + unfold outcome. simpl. unfold bind. now rewrite E.
Qed.

(** The store is down when the task starts: the first pass raises at its
    first query. *)
Lemma sweep_store_failure_ends_task_witness :
  In (Store Users false) (events_of (sweep_cycle Sample.env_store_down) Sample.w0) /\
  outcome (sweep_cycle Sample.env_store_down) Sample.w0 = Raise PyMongoError /\
  outcome (auto_ban_inactive_users Sample.env_store_down 3) Sample.w0 =
    Raise PyMongoError.
Proof.
  assert (H : In (Store Users false)
                 (events_of (sweep_cycle Sample.env_store_down) Sample.w0))
    by (vm_compute; tauto).
  split; [exact H|].
  destruct (sweep_store_failure_ends_task Sample.env_store_down Sample.w0 Users H)
    as (Hout & _ & _ & _ & _ & _ & Hloop).
  split; [exact Hout|]. exact (proj2 (Hloop 2%nat)).
Defined.

(** The store is down: with fuel for three passes the task raises in the
    first one, having read the clock and tried one query; nothing is
    logged, there is no sleep and no second pass. *)
Lemma sweep_store_failure_not_retried :
  outcome (auto_ban_inactive_users Sample.env_store_down 3) Sample.w0 =
    Raise PyMongoError /\
  events_of (auto_ban_inactive_users Sample.env_store_down 3) Sample.w0 =
    [TimeTime Sample.now; Store Users false].
Proof. split; vm_compute; reflexivity. Qed.

(* ------------------------------------------------------------------ *)
(** ** The admin check *)

Lemma authorized_iff (status : option string) :
  authorized status = true <->
  status = Some "administrator" \/ status = Some "creator".
Proof.
  destruct status as [s|]; simpl.
  - rewrite !orb_true_iff, !String.eqb_eq. split.
    + intros [->|[->|H]]; [now left|now right|discriminate].
    + intros [H|H]; inversion H; tauto.
  - split; [discriminate|]. intros [H|H]; discriminate.
Qed.

Section AdminCheck.
Variable py : Py.t.
Variable env : Env.t.
Variable update : Update.t.

Let chat := Chat.id (Update.effective_chat update).

Lemma is_admin_run (user_id : option Z) (w : World) :
  let user := is_admin_user update user_id in
  let status := Env.get_member env (history w) chat user in
  is_admin env update user_id w =
    (Ret (authorized status), record (GetMember chat user status) w).
Proof.
  unfold is_admin, try_except, bind, get_member, ret. fold chat.
  destruct (Env.get_member env (history w) chat (is_admin_user update user_id)) as [s|];
    reflexivity.
Qed.

(** A handler stopped by the admin check: the role lookup, the fixed
    reply, nothing else. *)
Lemma refused_run (w : World) (rest : M unit) :
  authorized (Env.get_member env (history w) chat
                (User.id (Update.effective_user update))) = false ->
  let handler :=
    admin <- is_admin env update None ;;
    if negb admin then reply_text env admin_only PlainText else rest in
  db (after handler w) = db w /\
  exists ok,
    events_of handler w =
      [GetMember chat (User.id (Update.effective_user update))
         (Env.get_member env (history w) chat
            (User.id (Update.effective_user update)));
       ReplyText admin_only PlainText ok].
Proof.
  intros Hno handler. subst handler.
  assert (E : exists ok r,
    (admin <- is_admin env update None ;;
     if negb admin then reply_text env admin_only PlainText else rest) w =
    (r, mkWorld (db w)
          (history w ++
           [GetMember chat (User.id (Update.effective_user update))
              (Env.get_member env (history w) chat
                 (User.id (Update.effective_user update)));
            ReplyText admin_only PlainText ok]))).
  { unfold bind at 1. rewrite is_admin_run.
    change (is_admin_user update None) with (User.id (Update.effective_user update)).
    rewrite Hno. simpl negb. cbv iota. unfold reply_text.
    eexists. eexists. unfold record. simpl. rewrite <- app_assoc. reflexivity. }
  destruct E as (ok & r & E). apply run_facts in E.
  destruct E as (_ & Hdb & Hev). split; [exact Hdb|]. now exists ok.
Qed.
End AdminCheck.

(** C5. [is_admin] never raises; it answers [True] exactly when the role
    lookup succeeds with role "administrator" or "creator", and [False]
    when the lookup fails. When the caller is not authorized, [/punto],
    [/warnings] and [/clearwarnings] make the role lookup, send the fixed
    reply, and leave the three collections as they were. *)
Theorem admin_check_fails_closed (py : Py.t) (env : Env.t) (update : Update.t)
    (user_id : option Z) (args : list string) (w : World) :
  let chat := Chat.id (Update.effective_chat update) in
  let caller := User.id (Update.effective_user update) in
  let status := Env.get_member env (history w) chat (is_admin_user update user_id) in
  outcome (is_admin env update user_id) w = Ret (authorized status) /\
  (authorized status = true <->
   status = Some "administrator" \/ status = Some "creator") /\
  (status = None -> outcome (is_admin env update user_id) w = Ret false) /\
  (authorized (Env.get_member env (history w) chat caller) = false ->
   forall handler,
     In handler [warn py env update args; warnings_command py env update args;
                 clear_warnings_command env update] ->
     db (after handler w) = db w /\
     exists ok,
       events_of handler w =
         [GetMember chat caller (Env.get_member env (history w) chat caller);
          ReplyText admin_only PlainText ok]).
Proof.
  intros chat caller status.
  assert (Hrun : outcome (is_admin env update user_id) w = Ret (authorized status)).
  { unfold outcome. now rewrite is_admin_run. }
  split; [exact Hrun|]. split; [apply authorized_iff|]. split.
  - intros E. rewrite Hrun, E. reflexivity.
  - intros Hno handler [<-|[<-|[<-|[]]]]; apply refused_run; exact Hno.
Qed.

(** Bob is a plain member of G1: his [/punto 5 spam] is refused. *)
Lemma admin_check_fails_closed_witness :
  authorized (Some "member") = false /\
  db (after (warn Sample.py (Sample.env_ok (Some "member")) Sample.reply_to_alice
                  ["5"; "spam"]) Sample.w0) = db Sample.w0.
Proof.
  split; [reflexivity|].
  destruct (admin_check_fails_closed Sample.py (Sample.env_ok (Some "member"))
              Sample.reply_to_alice None ["5"; "spam"] Sample.w0)
    as (_ & _ & _ & H).
  apply H; [reflexivity|now left].
Defined.

(* ------------------------------------------------------------------ *)
(** ** [/punto] *)

Lemma with_warnings_nil (d : DB) : with_warnings d [] = d.
Proof. destruct d. unfold with_warnings. simpl. now rewrite app_nil_r. Qed.

Lemma total_warnings_new (u c : Z) (reason : string) (stamps : list Z) (d : DB) :
  total_warnings u (with_warnings d (new_warnings u c reason stamps)) =
  (total_warnings u d + List.length stamps)%nat.
Proof.
  unfold total_warnings, with_warnings. simpl. rewrite filter_app_length. f_equal.
  induction stamps as [|t stamps IH]; simpl; [reflexivity|].
  rewrite Z.eqb_refl. simpl. now rewrite IH.
Qed.

Section Steps.
Variable env : Env.t.

Lemma command_run (col : Collection) (f : DB -> DB) (w : World) :
  command env col f w =
    if Env.store_up env (history w) col
    then (Ret tt, mkWorld (f (db w)) (history w ++ [Store col true]))
    else (Raise PyMongoError, mkWorld (db w) (history w ++ [Store col false])).
Proof. unfold command. destruct (Env.store_up env (history w) col); reflexivity. Qed.

Lemma query_run {A} (col : Collection) (q : DB -> A) (w : World) :
  query env col q w =
    if Env.store_up env (history w) col
    then (Ret (q (db w)), mkWorld (db w) (history w ++ [Store col true]))
    else (Raise PyMongoError, mkWorld (db w) (history w ++ [Store col false])).
Proof. unfold query. destruct (Env.store_up env (history w) col); reflexivity. Qed.

Lemma add_warning_now_run (u c : Z) (reason : string) (w : World) :
  let now := Env.time_time env (history w) in
  add_warning_now env u c reason w =
    if Env.store_up env (history w ++ [TimeTime now]) Warnings
    then (Ret tt, mkWorld (add_warning u c reason now (db w))
                          (history w ++ [TimeTime now; Store Warnings true]))
    else (Raise PyMongoError,
          mkWorld (db w) (history w ++ [TimeTime now; Store Warnings false])).
Proof.
  unfold add_warning_now, bind, time_time. rewrite command_run. simpl.
  destruct (Env.store_up env _ Warnings); now rewrite <- app_assoc.
Qed.
End Steps.

Section Punto.
Variable py : Py.t.
Variable env : Env.t.

Lemma inserts_run (u c : Z) (reason : string) (n : nat) (w : World) :
  exists r stamps evs,
    for_range n (add_warning_now env u c reason) w =
      (r, mkWorld (with_warnings (db w) (new_warnings u c reason stamps))
                  (history w ++ evs)) /\
    (List.length stamps <= n)%nat /\
    (r = Ret tt -> List.length stamps = n) /\
    (store_always_up env -> r = Ret tt).
Proof.
  revert w. induction n as [|n IH]; intros w.
  - exists (Ret tt), [], []. simpl. unfold ret.
    rewrite with_warnings_nil, app_nil_r. destruct w. auto.
  - simpl. unfold bind at 1. rewrite add_warning_now_run.
    set (now := Env.time_time env (history w)).
    destruct (Env.store_up env (history w ++ [TimeTime now]) Warnings) eqn:Eup.
    + destruct (IH (mkWorld (add_warning u c reason now (db w))
                            (history w ++ [TimeTime now; Store Warnings true])))
        as (r & stamps & evs & E & Hle & Hret & Hup).
      exists r, (now :: stamps), (TimeTime now :: Store Warnings true :: evs).
      split; [|split; [simpl; lia|split; [intros H; simpl; now rewrite Hret|exact Hup]]].
      rewrite E. f_equal. unfold with_warnings, add_warning, Mongo.insert_one.
      simpl. now rewrite <- !app_assoc.
    + exists (Raise PyMongoError), [], [TimeTime now; Store Warnings false].
      split; [|split; [simpl; lia|split; [discriminate|]]].
      * now rewrite with_warnings_nil.
      * intros Hup. now rewrite Hup in Eup.
Qed.

Variable update : Update.t.
Variable args : list string.
Variable target : User.t.

Let chat := Chat.id (Update.effective_chat update).
Let caller := User.id (Update.effective_user update).
Let amount := Z.max 1 (Z.min (fst (warn_args py args)) 100).
Let reason := snd (warn_args py args).

(** A run of [warn] that passed the admin check and has a target. *)
Lemma warn_run (w : World) :
  authorized (Env.get_member env (history w) chat caller) = true ->
  Message.reply_to_message (Update.message update) = Some target ->
  exists r d stamps evs,
    warn py env update args w =
      (r, mkWorld (with_warnings d (new_warnings (User.id target) chat reason stamps))
                  (history w ++ evs)) /\
    (d = add_user target (db w) \/
     d = db w /\ stamps = [] /\ r = Raise PyMongoError) /\
    (List.length stamps <= Z.to_nat amount)%nat /\
    (r = Ret tt ->
     d = add_user target (db w) /\ List.length stamps = Z.to_nat amount) /\
    (store_always_up env ->
     d = add_user target (db w) /\ List.length stamps = Z.to_nat amount /\
     exists pre ok,
       evs = (pre ++ [ReplyText
                        (warn_message (get_user_mention target)
                           (total_warnings (User.id target) (db w) + Z.to_nat amount))
                        HTML ok])%list).
Proof.
  intros Hadmin Htarget. unfold warn. unfold bind at 1.
  rewrite is_admin_run.
  change (is_admin_user update None) with caller. fold chat. rewrite Hadmin.
  unfold negb. rewrite Htarget.
  unfold amount, reason. destruct (warn_args py args) as [amount0 reason0].
  simpl fst. simpl snd.
  set (n := Z.to_nat (Z.max 1 (Z.min amount0 100))).
  set (member := GetMember chat caller (Env.get_member env (history w) chat caller)).
  unfold bind at 1. rewrite command_run. unfold record at 1 2. simpl db. simpl history.
  destruct (Env.store_up env (history w ++ [member]) Users) eqn:Eusers.
  - destruct (inserts_run (User.id target) chat reason0 n
                (mkWorld (add_user target (db w))
                         ((history w ++ [member]) ++ [Store Users true])))
      as (r & stamps & evs & E & Hle & Hret & Hup).
    simpl db in E. simpl history in E.
    unfold bind at 1. rewrite E. destruct r as [[]|e].
    + specialize (Hret eq_refl).
      unfold bind at 1. rewrite query_run. simpl db. simpl history.
      match goal with |- context [Env.store_up env ?h Warnings] =>
        destruct (Env.store_up env h Warnings) eqn:Ew end.
      * unfold reply_text. simpl db. simpl history.
        match goal with |- context [Env.reply_text env ?h ?t] =>
          set (ok := Env.reply_text env h t) end.
        rewrite get_warnings_length, total_warnings_new, Hret.
        change (total_warnings (User.id target) (add_user target (db w)))
          with (total_warnings (User.id target) (db w)).
        exists (if ok then Ret tt else Raise TelegramError), (add_user target (db w)), stamps.
        eexists (member :: Store Users true :: evs ++ [Store Warnings true; _])%list.
        split; [|split; [now left|split; [lia|split]]].
        -- unfold record. simpl. f_equal. f_equal.
           rewrite <- !app_assoc. simpl. reflexivity.
        -- intros _. split; [reflexivity|exact Hret].
        -- intros _. split; [reflexivity|]. split; [exact Hret|].
           exists (member :: Store Users true :: evs ++ [Store Warnings true])%list, ok.
           simpl. rewrite <- app_assoc. reflexivity.
      * exists (Raise PyMongoError), (add_user target (db w)), stamps.
        exists (member :: Store Users true :: evs ++ [Store Warnings false])%list.
        split; [|split; [now left|split; [lia|split]]].
        -- f_equal. f_equal. rewrite <- !app_assoc. simpl. reflexivity.
        -- discriminate.
        -- intros Hs. now rewrite Hs in Ew.
    + exists (Raise e), (add_user target (db w)), stamps.
      exists (member :: Store Users true :: evs).
      split; [|split; [now left|split; [exact Hle|split]]].
      * f_equal. f_equal. rewrite <- !app_assoc. simpl. reflexivity.
      * discriminate.
      * intros Hs. specialize (Hup Hs). discriminate.
  - exists (Raise PyMongoError), (db w), [], [member; Store Users false].
    split; [|split; [right; auto|split; [simpl; lia|split]]].
    + rewrite with_warnings_nil. now rewrite <- !app_assoc.
    + discriminate.
    + intros Hs. now rewrite Hs in Eusers.
Qed.
End Punto.

Lemma warn_args_cases (py : Py.t) (args : list string) :
  let amount := fst (warn_args py args) in
  let reason := snd (warn_args py args) in
  (args = [] -> amount = 1 /\ reason = default_reason) /\
  (forall first rest,
     args = first :: rest -> Py.isdigit py first = false ->
     amount = 1 /\ reason = String.concat " " args) /\
  (forall first rest n,
     args = first :: rest -> Py.isdigit py first = true ->
     Py.int py first = Some n ->
     amount = n /\ reason = reason_of rest) /\
  (forall first rest,
     args = first :: rest -> Py.isdigit py first = true ->
     Py.int py first = None ->
     amount = 1 /\ reason = default_reason).
Proof.
  cbv zeta. repeat split; intros; subst; unfold warn_args;
    repeat match goal with
           | H : Py.isdigit _ _ = _ |- _ => rewrite H; clear H
           | H : Py.int _ _ = _ |- _ => rewrite H; clear H
           end; reflexivity.
Qed.

(** C4 (as amended). For [/punto] sent by an admin as a reply, with the
    store answering. The amount is 1 and the reason the fixed default when
    there is no argument; when the first token is not all digits the
    amount is 1 and the reason is all tokens joined by spaces; when the
    first token is all digits and [int] reads it as [n], the amount is [n]
    clamped to [1,100] and the reason is the remaining tokens joined by
    spaces, or the default when none remains; when the first token is all
    digits for [str.isdigit] but [int] rejects it, the amount is 1 and the
    reason is the default whatever tokens follow. In every case exactly
    that amount of warning documents is appended, each with that reason,
    the current chat and the target user, and the reply carries the prior
    total plus the amount. *)
Theorem warn_inserts_clamped_amount (py : Py.t) (env : Env.t) (update : Update.t)
    (args : list string) (target : User.t) (w : World) :
  authorized (Env.get_member env (history w)
                (Chat.id (Update.effective_chat update))
                (User.id (Update.effective_user update))) = true ->
  store_always_up env ->
  Message.reply_to_message (Update.message update) = Some target ->
  let chat := Chat.id (Update.effective_chat update) in
  let parsed := fst (warn_args py args) in
  let amount := Z.max 1 (Z.min parsed 100) in
  let reason := snd (warn_args py args) in
  let run := warn py env update args in
  1 <= amount <= 100 /\
  (args = [] -> parsed = 1 /\ reason = default_reason) /\
  (forall first rest,
     args = first :: rest -> Py.isdigit py first = false ->
     parsed = 1 /\ reason = String.concat " " args) /\
  (forall first rest n,
     args = first :: rest -> Py.isdigit py first = true ->
     Py.int py first = Some n ->
     parsed = n /\ reason = reason_of rest) /\
  (forall first rest,
     args = first :: rest -> Py.isdigit py first = true ->
     Py.int py first = None ->
     parsed = 1 /\ reason = default_reason) /\
  exists stamps,
    List.length stamps = Z.to_nat amount /\
    db (after run w) =
      with_warnings (add_user target (db w))
                    (new_warnings (User.id target) chat reason stamps) /\
    exists pre ok,
      events_of run w =
        (pre ++ [ReplyText
                   (warn_message (get_user_mention target)
                      (total_warnings (User.id target) (db w) + Z.to_nat amount))
                   HTML ok])%list.
Proof.
  intros Hadmin Hup Htarget chat parsed amount reason run.
  split; [unfold amount; lia|].
  destruct (warn_args_cases py args) as (H0 & H1 & H2 & H3).
  split; [exact H0|]. split; [exact H1|]. split; [exact H2|]. split; [exact H3|].
  destruct (@warn_run py env update args target w Hadmin Htarget)
    as (r & d & stamps & evs & E & _ & _ & _ & Hs).
  destruct (Hs Hup) as (-> & Hlen & pre & ok & ->).
  apply run_facts in E. destruct E as (_ & Hdb & Hev).
  exists stamps. split; [exact Hlen|]. split; [exact Hdb|].
  exists pre, ok. exact Hev.
Qed.

(** Bob, an administrator, replies to Alice with [/punto 5 spam]. *)
Lemma warn_inserts_clamped_amount_witness :
  store_always_up (Sample.env_ok (Some "administrator")) /\
  exists stamps,
    List.length stamps = 5%nat /\
    db (after (warn Sample.py (Sample.env_ok (Some "administrator"))
                    Sample.reply_to_alice ["5"; "spam"]) Sample.w0) =
      with_warnings (add_user Sample.alice (db Sample.w0))
                    (new_warnings 7 (-1001) "spam" stamps).
Proof.
  split; [apply sample_store_up|].
  destruct (@warn_inserts_clamped_amount Sample.py (Sample.env_ok (Some "administrator"))
              Sample.reply_to_alice ["5"; "spam"] Sample.alice Sample.w0
              eq_refl (sample_store_up _ _ _ _) eq_refl)
    as (_ & _ & _ & _ & _ & stamps & Hlen & Hdb & _).
  exists stamps. split; [exact Hlen|exact Hdb].
Defined.

(** Bob, an administrator, replies to Alice with [/punto ² spam]:
    [str.isdigit] accepts the first token, [int] rejects it, and the one
    warning inserted carries the default reason, not the remaining token. *)
Lemma warn_superscript_amount_drops_reason :
  Py.isdigit Sample.py "²" = true /\
  Py.int Sample.py "²" = None /\
  outcome (warn Sample.py (Sample.env_ok (Some "administrator"))
                Sample.reply_to_alice ["²"; "spam"]) Sample.w0 = Ret tt /\
  warnings_col (db (after (warn Sample.py (Sample.env_ok (Some "administrator"))
                                Sample.reply_to_alice ["²"; "spam"]) Sample.w0)) =
    [WarningDoc.mk 7 (-1001) Sample.now default_reason] /\
  default_reason <> "spam" /\
  default_reason <> String.concat " " ["²"; "spam"].
Proof.
  repeat split; try (vm_compute; reflexivity); vm_compute; discriminate.
Qed.

Lemma warn_without_target (py : Py.t) (env : Env.t) (update : Update.t)
    (args : list string) (w : World) :
  authorized (Env.get_member env (history w)
                (Chat.id (Update.effective_chat update))
                (User.id (Update.effective_user update))) = true ->
  Message.reply_to_message (Update.message update) = None ->
  db (after (warn py env update args) w) = db w.
Proof.
  intros Hadmin Hnone. unfold after, warn. unfold bind at 1.
  rewrite is_admin_run.
  change (is_admin_user update None) with (User.id (Update.effective_user update)).
  rewrite Hadmin. unfold negb. rewrite Hnone. reflexivity.
Qed.

Lemma new_warnings_user (u c : Z) (reason : string) (stamps : list Z) wd :
  In wd (new_warnings u c reason stamps) -> WarningDoc.user_id wd = u.
Proof.
  unfold new_warnings. rewrite in_map_iff. intros (t & <- & _). reflexivity.
Qed.

(** C10. Whatever happens during [/punto] (refused, no target, store or
    reply failing at any point), the warning documents it has appended all
    belong to a user present in the users collection afterwards: the
    upsert of the target comes before the first insert. When the handler
    returns normally for an admin replying to a target, the users
    collection is the old one with the target upserted, so the target is a
    tracked user, at least one warning was appended, and every appended
    warning carries the target's id. *)
Theorem warn_tracks_warned_user (py : Py.t) (env : Env.t) (update : Update.t)
    (args : list string) (w : World) :
  let run := warn py env update args in
  let w' := after run w in
  exists added,
    warnings_col (db w') = (warnings_col (db w) ++ added)%list /\
    groups_col (db w') = groups_col (db w) /\
    (forall wd, In wd added ->
       In (WarningDoc.user_id wd) (map UserDoc.user_id (users_col (db w')))) /\
    (forall target,
       Message.reply_to_message (Update.message update) = Some target ->
       authorized (Env.get_member env (history w)
                     (Chat.id (Update.effective_chat update))
                     (User.id (Update.effective_user update))) = true ->
       outcome run w = Ret tt ->
       users_col (db w') = users_col (add_user target (db w)) /\
       In (User.id target) (map UserDoc.user_id (users_col (db w'))) /\
       added <> [] /\
       forall wd, In wd added -> WarningDoc.user_id wd = User.id target).
Proof.
  intros run w'. subst w' run.
  destruct (authorized (Env.get_member env (history w)
                          (Chat.id (Update.effective_chat update))
                          (User.id (Update.effective_user update)))) eqn:Hadmin.
  - destruct (Message.reply_to_message (Update.message update)) as [target|] eqn:Ht.
    + destruct (@warn_run py env update args target w Hadmin Ht)
        as (r & d & stamps & evs & E & Hd & Hle & Hret & _).
      apply run_facts in E. destruct E as (Hout & Hdb & _).
      rewrite Hdb, Hout.
      exists (new_warnings (User.id target) (Chat.id (Update.effective_chat update))
                (snd (warn_args py args)) stamps).
      split; [destruct Hd as [->|(-> & _)]; reflexivity|].
      split; [destruct Hd as [->|(-> & _)]; reflexivity|].
      split.
      * intros wd Hin. rewrite (new_warnings_user _ _ _ _ _ Hin).
        destruct Hd as [->|(_ & -> & _)]; [apply add_user_tracked|contradiction].
      * intros target' Ht' _ Hr. inversion Ht'; subst target'.
        destruct (Hret Hr) as (-> & Hlen).
        split; [reflexivity|]. split; [apply add_user_tracked|]. split.
        -- intros Hnil. unfold new_warnings in Hnil. apply map_eq_nil in Hnil.
           rewrite Hnil in Hlen. simpl in Hlen. lia.
        -- intros wd Hin. eapply new_warnings_user; eauto.
    + rewrite (warn_without_target py env update args w Hadmin Ht).
      exists []. rewrite app_nil_r.
      split; [reflexivity|]. split; [reflexivity|]. split; [intros ? []|].
      intros target Ht'. discriminate.
  - destruct (@refused_run env update w
                (match Message.reply_to_message (Update.message update) with
                 | Some warned_user =>
                     let (amount, reason) := warn_args py args in
                     let amount := Z.max 1 (Z.min amount 100) in
                     command env Users (add_user warned_user) ;;
                     for_range (Z.to_nat amount)
                       (add_warning_now env (User.id warned_user)
                          (Chat.id (Update.effective_chat update)) reason) ;;
                     warnings <- query env Warnings (get_warnings (User.id warned_user)) ;;
                     reply_text env
                       (warn_message (get_user_mention warned_user) (List.length warnings))
                       HTML
                 | None =>
                     reply_text env "Rispondi a un messaggio per assegnare un punto."
                       PlainText
                 end) Hadmin) as [Hdb _].
    change (db (after (warn py env update args) w) = db w) in Hdb.
    rewrite Hdb. exists []. rewrite app_nil_r.
    split; [reflexivity|]. split; [reflexivity|]. split; [intros ? []|].
    intros target _ Hyes. discriminate.
Qed.

(** Alice never wrote to the bot; after Bob's [/punto] on an empty
    database she is a tracked user with one warning. *)
Lemma warn_tracks_warned_user_witness :
  outcome (warn Sample.py (Sample.env_ok (Some "creator")) Sample.reply_to_alice [])
          (mkWorld empty_db []) = Ret tt /\
  In 7 (map UserDoc.user_id
          (users_col (db (after (warn Sample.py (Sample.env_ok (Some "creator"))
                                      Sample.reply_to_alice [])
                                (mkWorld empty_db []))))).
Proof.
  assert (Hout : outcome (warn Sample.py (Sample.env_ok (Some "creator"))
                               Sample.reply_to_alice [])
                         (mkWorld empty_db []) = Ret tt) by (vm_compute; reflexivity).
  split; [exact Hout|].
  destruct (warn_tracks_warned_user Sample.py (Sample.env_ok (Some "creator"))
              Sample.reply_to_alice [] (mkWorld empty_db []))
    as (added & _ & _ & _ & H).
  destruct (H Sample.alice eq_refl eq_refl Hout) as (_ & Hin & _).
  exact Hin.
Defined.

(* ------------------------------------------------------------------ *)
(** ** Every handler and the task keep the database reachable *)

Create HintDb keeps.

Section Keeps.
Variable env : Env.t.

Lemma keeps_ret {A} (a : A) : keeps_reachable (ret a).
Proof. intros w H. exact H. Qed.

Lemma keeps_raise {A} (e : Exn) : keeps_reachable (fun w => (@Raise A e, w)).
Proof. intros w H. exact H. Qed.

Lemma keeps_bind {A B} (m : M A) (k : A -> M B) :
  keeps_reachable m -> (forall a, keeps_reachable (k a)) ->
  keeps_reachable (bind m k).
Proof.
  intros Hm Hk w H. specialize (Hm w H). unfold after, bind in *.
  destruct (m w) as [[a|e] w1]; simpl in *; [|assumption].
  now apply (Hk a w1).
Qed.

Lemma keeps_try_except {A} (m : M A) (handler : Exn -> M A) :
  keeps_reachable m -> (forall e, keeps_reachable (handler e)) ->
  keeps_reachable (try_except m handler).
Proof.
  intros Hm Hh w H. specialize (Hm w H). unfold after, try_except in *.
  destruct (m w) as [[a|e] w1]; simpl in *; [assumption|].
  now apply (Hh e w1).
Qed.

Lemma keeps_emit (e : Event) : keeps_reachable (emit e).
Proof. intros w H. exact H. Qed.

Lemma keeps_time_time : keeps_reachable (time_time env).
Proof. intros w H. exact H. Qed.

Lemma keeps_query {A} (col : Collection) (q : DB -> A) :
  keeps_reachable (query env col q).
Proof.
  intros w H. unfold after. rewrite query_run.
  now destruct (Env.store_up env (history w) col).
Qed.

Lemma keeps_aggregate {A} (col : Collection) (q : DB -> Res A) :
  keeps_reachable (aggregate env col q).
Proof.
  intros w H. unfold after, aggregate.
  destruct (Env.store_up env (history w) col); [|assumption].
  now destruct (q (db w)).
Qed.

Lemma keeps_command (col : Collection) (f : DB -> DB) :
  (forall d, reachable d -> reachable (f d)) ->
  keeps_reachable (command env col f).
Proof.
  intros Hf w H. unfold after. rewrite command_run.
  destruct (Env.store_up env (history w) col); simpl; auto.
Qed.

Lemma keeps_get_member (c u : Z) : keeps_reachable (get_member env c u).
Proof. intros w H. exact H. Qed.

Lemma keeps_get_chat (c : Z) : keeps_reachable (get_chat env c).
Proof. intros w H. exact H. Qed.

Lemma keeps_ban (c u : Z) : keeps_reachable (ban_chat_member env c u).
Proof. intros w H. exact H. Qed.

Lemma keeps_unban (c u : Z) : keeps_reachable (unban_chat_member env c u).
Proof. intros w H. exact H. Qed.

Lemma keeps_reply_text (text : string) (mode : ParseMode) :
  keeps_reachable (reply_text env text mode).
Proof. intros w H. exact H. Qed.

Lemma keeps_sleep (s : Z) : keeps_reachable (sleep s).
Proof. intros w H. exact H. Qed.

Lemma keeps_for_each {A} (xs : list A) (body : A -> M unit) :
  (forall x, keeps_reachable (body x)) -> keeps_reachable (for_each xs body).
Proof.
  intros Hb. induction xs as [|x xs IH]; simpl.
  - apply keeps_ret.
  - apply keeps_bind; auto.
Qed.

Lemma keeps_for_range (n : nat) (body : M unit) :
  keeps_reachable body -> keeps_reachable (for_range n body).
Proof.
  intros Hb. induction n as [|n IH]; simpl.
  - apply keeps_ret.
  - apply keeps_bind; auto.
Qed.
End Keeps.

#[local] Hint Resolve keeps_ret keeps_raise keeps_emit keeps_time_time keeps_query
  keeps_aggregate keeps_get_member keeps_get_chat keeps_ban keeps_unban
  keeps_reply_text keeps_sleep : keeps.
#[local] Hint Constructors reachable : keeps.

(** One step through a computation: split binds, handlers and loops, and
    close the primitive calls from the hint database. *)
Ltac keeps_step :=
  lazymatch goal with
  | |- keeps_reachable (bind _ _) => apply keeps_bind; [|intro]
  | |- keeps_reachable (try_except _ _) => apply keeps_try_except; [|intro]
  | |- keeps_reachable (for_each _ _) => apply keeps_for_each; intro
  | |- keeps_reachable (for_range _ _) => apply keeps_for_range
  | |- keeps_reachable (command _ _ _) =>
      apply keeps_command; intros; auto with keeps
  | |- keeps_reachable _ => solve [auto with keeps]
  end.

Section HandlersKeep.
Variable py : Py.t.
Variable env : Env.t.
Variable update : Update.t.
Variable args : list string.

Lemma keeps_is_admin (user_id : option Z) :
  keeps_reachable (is_admin env update user_id).
Proof. unfold is_admin. repeat keeps_step. Qed.

Lemma keeps_start : keeps_reachable (start env update).
Proof. unfold start. repeat keeps_step. Qed.

Lemma keeps_warn : keeps_reachable (warn py env update args).
Proof.
  unfold warn. apply keeps_bind; [apply keeps_is_admin|]. intros admin.
  destruct admin; simpl; [|auto with keeps].
  destruct (Message.reply_to_message (Update.message update)); [|auto with keeps].
  destruct (warn_args py args) as [amount reason].
  unfold add_warning_now. repeat keeps_step.
Qed.

Lemma keeps_warning_lines (entries : list WarningDoc.t) (text : string) :
  keeps_reachable (warning_lines py env entries text).
Proof.
  revert text. induction entries as [|entry rest IH]; intros text; simpl.
  - apply keeps_ret.
  - apply keeps_bind; [auto with keeps|]. intros title. apply IH.
Qed.

Lemma keeps_warnings_command : keeps_reachable (warnings_command py env update args).
Proof.
  unfold warnings_command. apply keeps_bind; [apply keeps_is_admin|]. intros admin.
  destruct admin; simpl; [|auto with keeps].
  apply keeps_bind.
  - unfold warnings_target.
    destruct (Message.reply_to_message (Update.message update)); [auto with keeps|].
    destruct args as [|first rest]; [auto with keeps|].
    apply keeps_try_except; [|intros; repeat keeps_step].
    destruct (Py.int py first); repeat keeps_step.
  - intros [[uid mention]|]; [|auto with keeps].
    apply keeps_bind; [auto with keeps|]. intros [|entry rest]; [auto with keeps|].
    apply keeps_bind; [apply keeps_warning_lines|]. intros. auto with keeps.
Qed.

Lemma keeps_clear_warnings_command :
  keeps_reachable (clear_warnings_command env update).
Proof.
  unfold clear_warnings_command. apply keeps_bind; [apply keeps_is_admin|].
  intros admin. destruct admin; simpl; [|auto with keeps].
  destruct (Message.reply_to_message (Update.message update)); repeat keeps_step.
Qed.

Lemma keeps_top_lines (entries : list TopEntry) (idx : nat) (message : string) :
  keeps_reachable (top_lines env entries idx message).
Proof.
  revert idx message. induction entries as [|entry rest IH]; intros idx message; simpl.
  - apply keeps_ret.
  - apply keeps_bind; [auto with keeps|]. intros user_data. apply IH.
Qed.

Lemma keeps_top_warnings : keeps_reachable (top_warnings env).
Proof.
  unfold top_warnings. apply keeps_bind; [auto with keeps|].
  intros [|entry rest]; [auto with keeps|].
  apply keeps_bind; [apply keeps_top_lines|]. intros. auto with keeps.
Qed.

Lemma keeps_no_warnings : keeps_reachable (no_warnings env).
Proof.
  unfold no_warnings. apply keeps_bind; [auto with keeps|]. intros warned.
  apply keeps_bind; [auto with keeps|]. intros [|user rest]; auto with keeps.
Qed.

Lemma keeps_sweep_user (t : Z) (user : UserDoc.t) :
  keeps_reachable (sweep_user env t user).
Proof.
  unfold sweep_user. apply keeps_bind; [auto with keeps|].
  intros [doc|]; [auto with keeps|].
  unfold remove_from_group. repeat keeps_step.
Qed.

Lemma keeps_sweep_cycle : keeps_reachable (sweep_cycle env).
Proof.
  unfold sweep_cycle. apply keeps_bind; [auto with keeps|]. intros now.
  apply keeps_bind; [auto with keeps|]. intros all_users.
  apply keeps_bind; [|intros; auto with keeps].
  apply keeps_for_each. intros user. apply keeps_sweep_user.
Qed.

Lemma keeps_auto_ban_inactive_users (fuel : nat) :
  keeps_reachable (auto_ban_inactive_users env fuel).
Proof.
  induction fuel as [|fuel IH]; simpl.
  - apply keeps_ret.
  - apply keeps_bind; [apply keeps_sweep_cycle|]. intros _. exact IH.
Qed.

Lemma keeps_dispatch (handler : M unit) :
  keeps_reachable handler -> keeps_reachable (dispatch handler).
Proof.
  intros H. unfold dispatch, error_handler. apply keeps_try_except; auto with keeps.
Qed.
End HandlersKeep.

(* ================================================================== *)
(** * Further properties of the database functions *)

Section UpsertLookup.
Variable D : Type.
Variable key : D -> Z.
Variable k : Z.
Variable fresh : D.
Hypothesis fresh_key : key fresh = k.

Let upsert := Mongo.update_one_upsert (fun d => key d =? k) (fun _ => fresh) fresh.
Let lookup := fun (k' : Z) (col : list D) => List.find (fun d => key d =? k') col.

Lemma upsert_lookup_same (col : list D) : lookup k (upsert col) = Some fresh.
Proof.
  unfold lookup, upsert. induction col as [|d col IH]; simpl.
  - now rewrite fresh_key, Z.eqb_refl.
  - destruct (key d =? k) eqn:E; simpl.
    + now rewrite fresh_key, Z.eqb_refl.
    + now rewrite E.
Qed.

Lemma upsert_lookup_other (k' : Z) (col : list D) :
  k' <> k -> lookup k' (upsert col) = lookup k' col.
Proof.
  intros Hne. unfold lookup, upsert.
  assert (Hf : (key fresh =? k') = false).
  { rewrite fresh_key. apply Z.eqb_neq. congruence. }
  induction col as [|d col IH]; simpl.
  - now rewrite Hf.
  - destruct (key d =? k) eqn:E; simpl.
    + apply Z.eqb_eq in E. rewrite Hf.
      assert (Hd : (key d =? k') = false) by (rewrite E; apply Z.eqb_neq; congruence).
      now rewrite Hd.
    + destruct (key d =? k'); [reflexivity|exact IH].
Qed.

Lemma upsert_twice (col : list D) : upsert (upsert col) = upsert col.
Proof.
  unfold upsert. induction col as [|d col IH]; simpl.
  - now rewrite fresh_key, Z.eqb_refl.
  - destruct (key d =? k) eqn:E; simpl.
    + now rewrite fresh_key, Z.eqb_refl.
    + rewrite E. now f_equal.
Qed.

Lemma upsert_length (col : list D) :
  List.length (upsert col) =
  match lookup k col with
  | Some _ => List.length col
  | None => S (List.length col)
  end.
Proof.
  unfold lookup, upsert. induction col as [|d col IH]; simpl; [reflexivity|].
  destruct (key d =? k); simpl; [reflexivity|].
  rewrite IH. now destruct (find _ col).
Qed.
End UpsertLookup.

(** X1. [add_user] is an upsert keyed by the user id: afterwards the
    lookup of that id gives the document just written (last write wins),
    the lookup of every other id is as before, the collection has one
    document more exactly when the id was not tracked, a second identical
    call changes nothing, and warnings and groups are untouched. *)
Theorem add_user_upsert (user : User.t) (d : DB) :
  user_of (User.id user) (add_user user d) = Some (user_doc user) /\
  (forall k, k <> User.id user -> user_of k (add_user user d) = user_of k d) /\
  List.length (users_col (add_user user d)) =
    match user_of (User.id user) d with
    | Some _ => List.length (users_col d)
    | None => S (List.length (users_col d))
    end /\
  add_user user (add_user user d) = add_user user d /\
  warnings_col (add_user user d) = warnings_col d /\
  groups_col (add_user user d) = groups_col d.
Proof.
  unfold user_of, Mongo.find_one, add_user. simpl.
  split; [now apply upsert_lookup_same|].
  split; [intros k Hk; now apply upsert_lookup_other|].
  split; [now apply upsert_length|].
  split; [|split; reflexivity].
  f_equal. now apply upsert_twice.
Qed.

(** X2. [add_group] followed by [get_group_title] gives back the title
    just written, whatever was stored for that chat before; the title of
    every other chat is as before; and a chat with no group document has
    no title. *)
Theorem add_group_then_get_group_title (chat : Chat.t) (d : DB) :
  get_group_title (Chat.id chat) (add_group chat d) = Chat.title chat /\
  (forall k, k <> Chat.id chat ->
             get_group_title k (add_group chat d) = get_group_title k d) /\
  (forall k, ~ In k (map GroupDoc.chat_id (groups_col d)) ->
             get_group_title k d = None) /\
  users_col (add_group chat d) = users_col d /\
  warnings_col (add_group chat d) = warnings_col d.
Proof.
  unfold get_group_title, Mongo.find_one, add_group. simpl.
  split; [|split; [|split; [|split; reflexivity]]].
  - assert (E : find (fun g => GroupDoc.chat_id g =? Chat.id chat)
                   (Mongo.update_one_upsert
                      (fun g => GroupDoc.chat_id g =? Chat.id chat)
                      (fun _ => group_doc chat) (group_doc chat) (groups_col d)) =
                 Some (group_doc chat)) by now apply upsert_lookup_same.
    now rewrite E.
  - intros k Hk.
    assert (E : find (fun g => GroupDoc.chat_id g =? k)
                   (Mongo.update_one_upsert
                      (fun g => GroupDoc.chat_id g =? Chat.id chat)
                      (fun _ => group_doc chat) (group_doc chat) (groups_col d)) =
                 find (fun g => GroupDoc.chat_id g =? k) (groups_col d))
      by now apply upsert_lookup_other.
    now rewrite E.
  - intros k Hk. destruct (find _ (groups_col d)) as [g|] eqn:E; [|reflexivity].
    exfalso. apply Hk. apply find_some in E. destruct E as [Hin E].
    apply Z.eqb_eq in E. rewrite <- E. now apply in_map.
Qed.

Lemma filter_filter_other (u v : Z) (l : list WarningDoc.t) :
  v <> u ->
  filter (fun w => WarningDoc.user_id w =? v)
         (filter (fun w => negb (WarningDoc.user_id w =? u)) l) =
  filter (fun w => WarningDoc.user_id w =? v) l.
Proof.
  intros Hne. induction l as [|w l IH]; simpl; [reflexivity|].
  destruct (WarningDoc.user_id w =? u) eqn:Eu; simpl.
  - apply Z.eqb_eq in Eu.
    assert (Ev : (WarningDoc.user_id w =? v) = false)
      by (apply Z.eqb_neq; congruence).
    now rewrite Ev.
  - destruct (WarningDoc.user_id w =? v); [now f_equal|exact IH].
Qed.

(** X3. [clear_warnings u] touches the warnings of [u] only: every other
    user's list of warnings is the same list as before, the users and
    groups collections are untouched, and no warning document is added. *)
Theorem clear_warnings_spares_other_users (u : Z) (d : DB) :
  (forall v, v <> u -> get_warnings v (clear_warnings u d) = get_warnings v d) /\
  total_warnings u (clear_warnings u d) = 0%nat /\
  users_col (clear_warnings u d) = users_col d /\
  groups_col (clear_warnings u d) = groups_col d /\
  (forall w, In w (warnings_col (clear_warnings u d)) ->
             In w (warnings_col d) /\ WarningDoc.user_id w <> u).
Proof.
  split; [|split; [|split; [reflexivity|split; [reflexivity|]]]].
  - intros v Hv. unfold get_warnings, clear_warnings, Mongo.find, Mongo.delete_many.
    simpl. now rewrite filter_filter_other.
  - unfold total_warnings, clear_warnings, Mongo.delete_many. simpl.
    rewrite filter_none; [reflexivity|].
    intros w Hw. apply filter_In in Hw. destruct Hw as [_ Hw].
    now destruct (WarningDoc.user_id w =? u).
  - intros w Hw. unfold clear_warnings, Mongo.delete_many in Hw. simpl in Hw.
    apply filter_In in Hw. destruct Hw as [Hin Hw]. split; [assumption|].
    apply negb_true_iff, Z.eqb_neq in Hw. exact Hw.
Qed.

Lemma sort_desc_newest_last {D} (key : D -> Z) (l : list D) (x : D) :
  (forall e, In e l -> key e < key x) ->
  Mongo.sort_desc key (l ++ [x]) = x :: Mongo.sort_desc key l.
Proof.
  induction l as [|e l IH]; intros Hlt; simpl; [reflexivity|].
  rewrite IH by (intros e' He'; apply Hlt; now right).
  simpl. assert (E : (key x <=? key e) = false).
  { apply Z.leb_gt. apply Hlt. now left. }
  now rewrite E.
Qed.

(** X4. How [add_warning] shows in [get_warnings]: a warning recorded for
    another user leaves the list of [u] as it was, and a warning of [u]
    whose timestamp is later than all of [u]'s earlier ones is listed
    first, followed by the earlier list. *)
Theorem add_warning_then_get_warnings (u v c : Z) (reason : string) (t : Z) (d : DB) :
  (v <> u -> get_warnings u (add_warning v c reason t d) = get_warnings u d) /\
  ((forall w, In w (get_warnings u d) -> WarningDoc.timestamp w < t) ->
   get_warnings u (add_warning u c reason t d) =
     WarningDoc.mk u c t reason :: get_warnings u d).
Proof.
  unfold get_warnings, add_warning, Mongo.find, Mongo.insert_one. simpl.
  rewrite !filter_app. simpl. split.
  - intros Hne.
    assert (E : (v =? u) = false) by now apply Z.eqb_neq.
    rewrite E. now rewrite app_nil_r.
  - intros Hlt. rewrite Z.eqb_refl. apply sort_desc_newest_last.
    intros e He. apply Hlt.
    apply (Permutation_in _ (sort_desc_perm WarningDoc.timestamp _)). exact He.
Qed.

Lemma group_count_has {D} (field : D -> Z) (col : list D) (k : Z) :
  In k (map field col) -> In k (map _id (Mongo.group_count field col)).
Proof.
  unfold Mongo.group_count.
  enough (H : forall acc,
             In k (map _id acc) \/ In k (map field col) ->
             In k (map _id (fold_left (fun acc d => Mongo.group_incr (field d) acc) col acc))).
  { intros Hin. apply H. now right. }
  induction col as [|d col IH]; intros acc Hin; simpl in *.
  - tauto.
  - apply IH. rewrite group_incr_ids. destruct Hin as [Hin|[Hin|Hin]]; auto.
Qed.

Lemma skipn_incl {A} (n : nat) (l : list A) x : In x (skipn n l) -> In x l.
Proof.
  intros H. rewrite <- (firstn_skipn n l). apply in_or_app. now right.
Qed.

Lemma strongly_sorted_split {A} (R : A -> A -> Prop) (n : nat) (l : list A) :
  StronglySorted R l ->
  forall x y, In x (firstn n l) -> In y (skipn n l) -> R x y.
Proof.
  intros Hs. revert n. induction Hs as [|a l Hs IH Hall]; intros n x y Hx Hy.
  - destruct n; contradiction.
  - destruct n as [|n]; simpl in *; [contradiction|].
    destruct Hx as [->|Hx].
    + rewrite Forall_forall in Hall. apply Hall.
      apply (skipn_incl n). exact Hy.
    + eapply IH; eauto.
Qed.

Lemma group_count_length {D} (field : D -> Z) (col : list D) :
  List.length (Mongo.group_count field col) =
  List.length (Mongo.distinct field col).
Proof.
  rewrite <- (length_map _id). apply Permutation_length.
  apply NoDup_Permutation.
  - apply group_count_NoDup.
  - apply NoDup_nodup.
  - intros k. unfold Mongo.distinct. rewrite nodup_In. split.
    + apply group_count_ids.
    + apply group_count_has.
Qed.

(** X5. The list [get_top_warned_users n] returns is the top of the
    ranking: no user left out has more warnings than a user listed, the
    users listed all have warnings, and the list has [n] entries unless
    fewer users have warnings, in which case it lists them all. *)
Theorem get_top_warned_users_is_the_top (n : Z) (d : DB) (top : list TopEntry) :
  get_top_warned_users n d = Ret top ->
  (forall e k, In e top -> ~ In k (map _id top) ->
               (total_warnings k d <= count e)%nat) /\
  (forall k, In k (map _id top) -> In k (warned_user_ids d)) /\
  List.length top = Nat.min (Z.to_nat n) (List.length (warned_user_ids d)).
Proof.
  unfold get_top_warned_users. destruct (Mongo.valid_limit n); [|discriminate].
  intros E. inversion E as [Htop]. clear E.
  set (groups := Mongo.group_count WarningDoc.user_id (warnings_col d)) in *.
  set (key := fun e : TopEntry => Z.of_nat (count e)) in *.
  set (sorted := Mongo.sort_desc key groups) in *.
  pose proof (sort_desc_perm key groups) as Hperm. fold sorted in Hperm.
  assert (Hss : StronglySorted (fun a b => key b <= key a) sorted).
  { apply Sorted_StronglySorted; [|apply sort_desc_sorted].
    intros a b c Hab Hbc. lia. }
  split; [|split].
  - intros e k He Hk.
    destruct (in_dec Z.eq_dec k (map WarningDoc.user_id (warnings_col d))) as [Hin|Hout].
    + apply (group_count_has WarningDoc.user_id) in Hin. fold groups in Hin.
      apply in_map_iff in Hin. destruct Hin as (e' & Hid & Hin').
      apply (Permutation_in _ Hperm) in Hin'.
      rewrite <- (firstn_skipn (Z.to_nat n) sorted) in Hin'.
      apply in_app_or in Hin'. destruct Hin' as [Hfirst|Hrest].
      * exfalso. apply Hk. rewrite <- Hid. now apply in_map.
      * pose proof (strongly_sorted_split (Z.to_nat n) Hss e e' He Hrest) as Hle.
        unfold key in Hle.
        assert (Hc : count e' = total_warnings k d).
        { assert (Hg : In e' groups).
          { apply (Permutation_in _ (Permutation_sym Hperm)).
            apply (skipn_incl (Z.to_nat n)). exact Hrest. }
          rewrite (group_count_counts _ _ _ Hg), Hid. apply occurrences_map. }
        lia.
    + unfold total_warnings. rewrite filter_none; [simpl; lia|].
      intros w Hw. apply Z.eqb_neq. intros Heq. apply Hout.
      rewrite <- Heq. now apply in_map.
  - intros k Hk. apply in_map_iff in Hk. destruct Hk as (e & <- & He).
    apply firstn_incl in He. apply (Permutation_in _ (Permutation_sym Hperm)) in He.
    unfold warned_user_ids, Mongo.distinct. rewrite nodup_In.
    apply group_count_ids. now apply in_map.
  - rewrite length_firstn. f_equal. unfold sorted.
    rewrite sort_desc_length. apply group_count_length.
Qed.

(** Alice has two warnings and Bob one: the top 1 is Alice. *)
Lemma get_top_warned_users_is_the_top_witness :
  get_top_warned_users 1
    (record_warnings [mkInsert 8 (-1001) "a" 1; mkInsert 7 (-1001) "b" 2;
                      mkInsert 7 (-1002) "c" 3] Sample.db0) = Ret [mkTop 7 2] /\
  (total_warnings 8
     (record_warnings [mkInsert 8 (-1001) "a" 1; mkInsert 7 (-1001) "b" 2;
                       mkInsert 7 (-1002) "c" 3] Sample.db0) <= 2)%nat.
Proof.
  assert (E : get_top_warned_users 1
    (record_warnings [mkInsert 8 (-1001) "a" 1; mkInsert 7 (-1001) "b" 2;
                      mkInsert 7 (-1002) "c" 3] Sample.db0) = Ret [mkTop 7 2])
    by reflexivity.
  split; [exact E|].
  destruct (get_top_warned_users_is_the_top _ _ E) as (H & _ & _).
  apply (H (mkTop 7 2) 8); [now left|].
  intros [Hin|[]]. discriminate.
Defined.

Lemma no_warnings_In (d : DB) (doc : UserDoc.t) :
  In doc (get_users_with_no_warnings d) <->
  In doc (users_col d) /\ total_warnings (UserDoc.user_id doc) d = 0%nat.
Proof.
  unfold get_users_with_no_warnings, users_not_in, Mongo.find.
  rewrite filter_In, negb_true_iff, <- not_true_iff_false, existsb_Zeqb,
    warned_user_ids_spec.
  unfold total_warnings. split; intros [Hin H]; (split; [assumption|]).
  - rewrite filter_none; [reflexivity|].
    intros w Hw. apply Z.eqb_neq. intros E. apply H. now exists w.
  - intros (w & Hw & E).
    assert (Hf : In w (filter (fun w => WarningDoc.user_id w =? UserDoc.user_id doc)
                              (warnings_col d))).
    { apply filter_In. split; [assumption|]. now apply Z.eqb_eq. }
    destruct (filter _ (warnings_col d)); [contradiction|discriminate].
Qed.

(** X6. Who [get_users_with_no_warnings] lists: a tracked user is listed
    exactly when the user has no warning document; so a tracked user is
    listed right after [clear_warnings] on that user, is not listed right
    after an [add_warning] for that user, and is listed as before after an
    [add_warning] for someone else. *)
Theorem get_users_with_no_warnings_composition (d : DB) (doc : UserDoc.t) :
  (In doc (get_users_with_no_warnings d) <->
   In doc (users_col d) /\ total_warnings (UserDoc.user_id doc) d = 0%nat) /\
  (In doc (users_col d) ->
   In doc (get_users_with_no_warnings (clear_warnings (UserDoc.user_id doc) d))) /\
  (forall c reason t,
     ~ In doc (get_users_with_no_warnings
                 (add_warning (UserDoc.user_id doc) c reason t d))) /\
  (forall v c reason t,
     v <> UserDoc.user_id doc ->
     (In doc (get_users_with_no_warnings (add_warning v c reason t d)) <->
      In doc (get_users_with_no_warnings d))).
Proof.
  split; [apply no_warnings_In|]. split; [|split].
  - intros Hin. apply no_warnings_In. split; [exact Hin|].
    unfold total_warnings, clear_warnings, Mongo.delete_many. simpl.
    rewrite filter_none; [reflexivity|].
    intros w Hw. apply filter_In in Hw. destruct Hw as [_ Hw].
    now destruct (WarningDoc.user_id w =? UserDoc.user_id doc).
  - intros c reason t Hin. apply no_warnings_In in Hin. destruct Hin as [_ H].
    unfold total_warnings, add_warning, Mongo.insert_one in H. simpl in H.
    rewrite filter_app_length in H. simpl in H.
    rewrite Z.eqb_refl in H. simpl in H. lia.
  - intros v c reason t Hne. rewrite !no_warnings_In.
    unfold total_warnings, add_warning, Mongo.insert_one. simpl.
    rewrite filter_app_length. simpl.
    assert (E : (v =? UserDoc.user_id doc) = false) by now apply Z.eqb_neq.
    rewrite E. simpl. rewrite Nat.add_0_r. reflexivity.
Qed.

(* ================================================================== *)
(** * Further properties of the handlers and the task *)

Section KeepsDb.
Variable env : Env.t.

Lemma keeps_db_ret {A} (a : A) : keeps_db (ret a).
Proof. intros w. reflexivity. Qed.

Lemma keeps_db_raise {A} (e : Exn) : keeps_db (fun w => (@Raise A e, w)).
Proof. intros w. reflexivity. Qed.

Lemma keeps_db_bind {A B} (m : M A) (k : A -> M B) :
  keeps_db m -> (forall a, keeps_db (k a)) -> keeps_db (bind m k).
Proof.
  intros Hm Hk w. specialize (Hm w). unfold after, bind in *.
  destruct (m w) as [[a|e] w1]; simpl in *; [|assumption].
  rewrite <- Hm. apply (Hk a w1).
Qed.

Lemma keeps_db_try_except {A} (m : M A) (handler : Exn -> M A) :
  keeps_db m -> (forall e, keeps_db (handler e)) -> keeps_db (try_except m handler).
Proof.
  intros Hm Hh w. specialize (Hm w). unfold after, try_except in *.
  destruct (m w) as [[a|e] w1]; simpl in *; [assumption|].
  rewrite <- Hm. apply (Hh e w1).
Qed.

Lemma keeps_db_emit (e : Event) : keeps_db (emit e).
Proof. intros w. reflexivity. Qed.

Lemma keeps_db_time_time : keeps_db (time_time env).
Proof. intros w. reflexivity. Qed.

Lemma keeps_db_query {A} (col : Collection) (q : DB -> A) :
  keeps_db (query env col q).
Proof.
  intros w. unfold after. rewrite query_run.
  now destruct (Env.store_up env (history w) col).
Qed.

Lemma keeps_db_aggregate {A} (col : Collection) (q : DB -> Res A) :
  keeps_db (aggregate env col q).
Proof.
  intros w. unfold after, aggregate.
  destruct (Env.store_up env (history w) col); [|reflexivity].
  now destruct (q (db w)).
Qed.

Lemma keeps_db_get_member (c u : Z) : keeps_db (get_member env c u).
Proof. intros w. reflexivity. Qed.

Lemma keeps_db_get_chat (c : Z) : keeps_db (get_chat env c).
Proof. intros w. reflexivity. Qed.

Lemma keeps_db_ban (c u : Z) : keeps_db (ban_chat_member env c u).
Proof. intros w. reflexivity. Qed.

Lemma keeps_db_unban (c u : Z) : keeps_db (unban_chat_member env c u).
Proof. intros w. reflexivity. Qed.

Lemma keeps_db_reply_text (text : string) (mode : ParseMode) :
  keeps_db (reply_text env text mode).
Proof. intros w. reflexivity. Qed.

Lemma keeps_db_sleep (s : Z) : keeps_db (sleep s).
Proof. intros w. reflexivity. Qed.

Lemma keeps_db_for_each {A} (xs : list A) (body : A -> M unit) :
  (forall x, keeps_db (body x)) -> keeps_db (for_each xs body).
Proof.
  intros Hb. induction xs as [|x xs IH]; simpl.
  - apply keeps_db_ret.
  - apply keeps_db_bind; auto.
Qed.
End KeepsDb.

Create HintDb keeps_db.
#[local] Hint Resolve keeps_db_ret keeps_db_raise keeps_db_emit keeps_db_time_time
  keeps_db_query keeps_db_aggregate keeps_db_get_member keeps_db_get_chat
  keeps_db_ban keeps_db_unban keeps_db_reply_text keeps_db_sleep : keeps_db.

Ltac keeps_db_step :=
  lazymatch goal with
  | |- keeps_db (bind _ _) => apply keeps_db_bind; [|intro]
  | |- keeps_db (try_except _ _) => apply keeps_db_try_except; [|intro]
  | |- keeps_db (for_each _ _) => apply keeps_db_for_each; intro
  | |- keeps_db _ => solve [auto with keeps_db]
  end.

Section ReadOnly.
Variable py : Py.t.
Variable env : Env.t.
Variable update : Update.t.
Variable args : list string.

Lemma keeps_db_is_admin (user_id : option Z) : keeps_db (is_admin env update user_id).
Proof. unfold is_admin. repeat keeps_db_step. Qed.

Lemma keeps_db_warning_lines (entries : list WarningDoc.t) (text : string) :
  keeps_db (warning_lines py env entries text).
Proof.
  revert text. induction entries as [|entry rest IH]; intros text; simpl.
  - apply keeps_db_ret.
  - apply keeps_db_bind; [auto with keeps_db|]. intros title. apply IH.
Qed.

Lemma keeps_db_warnings_command : keeps_db (warnings_command py env update args).
Proof.
  unfold warnings_command. apply keeps_db_bind; [apply keeps_db_is_admin|].
  intros admin. destruct admin; simpl; [|auto with keeps_db].
  apply keeps_db_bind.
  - unfold warnings_target.
    destruct (Message.reply_to_message (Update.message update)); [auto with keeps_db|].
    destruct args as [|first rest]; [auto with keeps_db|].
    apply keeps_db_try_except; [|intros; repeat keeps_db_step].
    destruct (Py.int py first); repeat keeps_db_step.
  - intros [[uid mention]|]; [|auto with keeps_db].
    apply keeps_db_bind; [auto with keeps_db|].
    intros [|entry rest]; [auto with keeps_db|].
    apply keeps_db_bind; [apply keeps_db_warning_lines|]. intros. auto with keeps_db.
Qed.

Lemma keeps_db_top_lines (entries : list TopEntry) (idx : nat) (message : string) :
  keeps_db (top_lines env entries idx message).
Proof.
  revert idx message. induction entries as [|entry rest IH]; intros idx message; simpl.
  - apply keeps_db_ret.
  - apply keeps_db_bind; [auto with keeps_db|]. intros user_data. apply IH.
Qed.

Lemma keeps_db_top_warnings : keeps_db (top_warnings env).
Proof.
  unfold top_warnings. apply keeps_db_bind; [auto with keeps_db|].
  intros [|entry rest]; [auto with keeps_db|].
  apply keeps_db_bind; [apply keeps_db_top_lines|]. intros. auto with keeps_db.
Qed.

Lemma keeps_db_no_warnings : keeps_db (no_warnings env).
Proof.
  unfold no_warnings. apply keeps_db_bind; [auto with keeps_db|]. intros warned.
  apply keeps_db_bind; [auto with keeps_db|]. intros [|user rest]; auto with keeps_db.
Qed.

Lemma keeps_db_sweep_user (t : Z) (user : UserDoc.t) :
  keeps_db (sweep_user env t user).
Proof.
  unfold sweep_user. apply keeps_db_bind; [auto with keeps_db|].
  intros [doc|]; [auto with keeps_db|].
  unfold remove_from_group. repeat keeps_db_step.
Qed.

Lemma keeps_db_sweep_cycle : keeps_db (sweep_cycle env).
Proof.
  unfold sweep_cycle. apply keeps_db_bind; [auto with keeps_db|]. intros now.
  apply keeps_db_bind; [auto with keeps_db|]. intros all_users.
  apply keeps_db_bind; [|intros; auto with keeps_db].
  apply keeps_db_for_each. intros user. apply keeps_db_sweep_user.
Qed.

Lemma keeps_db_auto_ban (fuel : nat) : keeps_db (auto_ban_inactive_users env fuel).
Proof.
  induction fuel as [|fuel IH]; simpl.
  - apply keeps_db_ret.
  - apply keeps_db_bind; [apply keeps_db_sweep_cycle|]. intros _. exact IH.
Qed.
End ReadOnly.

(** X7. The admin check, [/warnings], [/topwarnings], [/nowarnings] and
    the background task only read: whatever the store and Telegram answer,
    and however the run ends, the three collections are afterwards what
    they were before. In particular the task removes users from groups
    without ever touching a stored document. *)
Theorem read_only_commands_keep_db (py : Py.t) (env : Env.t) (update : Update.t)
    (args : list string) (user_id : option Z) (fuel : nat) (w : World) :
  db (after (is_admin env update user_id) w) = db w /\
  db (after (warnings_command py env update args) w) = db w /\
  db (after (top_warnings env) w) = db w /\
  db (after (no_warnings env) w) = db w /\
  db (after (sweep_cycle env) w) = db w /\
  db (after (auto_ban_inactive_users env fuel) w) = db w.
Proof.
  repeat split.
  - apply keeps_db_is_admin.
  - apply keeps_db_warnings_command.
  - apply keeps_db_top_warnings.
  - apply keeps_db_no_warnings.
  - apply keeps_db_sweep_cycle.
  - apply keeps_db_auto_ban.
Qed.

(** X8. Starting from a database the program built, whichever command is
    dispatched (or however many passes the task makes), with whatever
    failures, the database afterwards is again one the program can build:
    it holds at most one document per user id and one per chat id. So
    upserts never duplicate a user or a group. *)
Theorem database_stays_well_keyed (py : Py.t) (env : Env.t) (update : Update.t)
    (args : list string) (fuel : nat) (w : World) (handler : M unit) :
  reachable (db w) ->
  In handler [start env update; warn py env update args;
              warnings_command py env update args;
              clear_warnings_command env update;
              top_warnings env; no_warnings env;
              auto_ban_inactive_users env fuel] ->
  let d' := db (after (dispatch handler) w) in
  reachable d' /\
  NoDup (map UserDoc.user_id (users_col d')) /\
  NoDup (map GroupDoc.chat_id (groups_col d')).
Proof.
  intros Hr Hin d'.
  assert (Hk : keeps_reachable handler).
  { simpl in Hin.
    destruct Hin as [<-|[<-|[<-|[<-|[<-|[<-|[<-|[]]]]]]]].
    - apply keeps_start.
    - apply keeps_warn.
    - apply keeps_warnings_command.
    - apply keeps_clear_warnings_command.
    - apply keeps_top_warnings.
    - apply keeps_no_warnings.
    - apply keeps_auto_ban_inactive_users. }
  assert (Hd : reachable d') by (apply keeps_dispatch; assumption).
  split; [exact Hd|]. now apply reachable_unique.
Qed.

(** Alice sends [/start] twice in G1: still one user document for her. *)
Lemma database_stays_well_keyed_witness :
  reachable (db Sample.w0) /\
  NoDup (map UserDoc.user_id
           (users_col (db (after (dispatch
              (start (Sample.env_ok None)
                     (Update.mk Sample.alice Sample.g1 (Message.mk Sample.alice None))))
              Sample.w0)))).
Proof.
  split; [exact sample_db0_reachable|].
  apply (@database_stays_well_keyed Sample.py (Sample.env_ok None)
           (Update.mk Sample.alice Sample.g1 (Message.mk Sample.alice None))
           [] 0 Sample.w0 _ sample_db0_reachable).
  now left.
Defined.

(** X9. Of one pass of the task, whatever the store and Telegram answer:
    either it runs to its sleep with every store round trip answered, or
    it ends with the store's exception right at the first round trip that
    failed. No Telegram error ever leaves the pass, and every failed ban
    or unban call made before the end has its warning log line. *)
Theorem sweep_cycle_only_store_errors_escape (env : Env.t) (w : World) :
  let evs := events_of (sweep_cycle env) w in
  failures_logged evs /\
  ((outcome (sweep_cycle env) w = Ret tt /\
    Forall (fun e => store_failure e = false) evs /\
    exists evs0, evs = (evs0 ++ [Sleep 3600])%list) \/
   (outcome (sweep_cycle env) w = Raise PyMongoError /\
    exists evs0 col, evs = (evs0 ++ [Store col false])%list /\
                     Forall (fun e => store_failure e = false) evs0)).
Proof.
  cbv zeta.
  destruct (sweep_cycle_run env w) as (r & evs & E & C & _).
  apply run_facts in E. destruct E as (Hout & _ & Hev). rewrite Hout, Hev.
  pose proof (cycle_events_outcome C) as O.
  assert (Hlog : failures_logged evs).
  { inversion C; subst.
    - repeat (apply failures_logged_quiet; [not_a_call|]).
      apply failures_logged_app; [eapply failures_logged_users; eauto|].
      apply failures_logged_quiet; [not_a_call|]. intros c x [[]|[]].
    - repeat (apply failures_logged_quiet; [not_a_call|]). intros c x [[]|[]].
    - repeat (apply failures_logged_quiet; [not_a_call|]).
      eapply failures_logged_users; eauto. }
  split; [exact Hlog|]. destruct r as [[]|e].
  - left. split; [reflexivity|]. split; [exact O|].
    inversion C; subst. eexists (_ :: _ :: _). reflexivity.
  - right. destruct O as (-> & Hlast & _).
    split; [reflexivity|exact Hlast].
Qed.

Lemma count_events_app (p : Event -> bool) (e1 e2 : list Event) :
  count_events p (e1 ++ e2) = (count_events p e1 + count_events p e2)%nat.
Proof. unfold count_events. now rewrite filter_app, length_app. Qed.

Lemma count_sleep_body (evs : list Event) :
  Forall (fun e => sweep_body_event e = true) evs -> count_events is_sleep evs = 0%nat.
Proof.
  unfold count_events. intros H. rewrite filter_none; [reflexivity|].
  rewrite Forall_forall in H. intros e He. specialize (H e He).
  destruct e; simpl in *; congruence.
Qed.

Lemma count_bans_calls (c u : Z) (evs : list Event) :
  count_events (is_ban_on c u) evs = count_events (is_ban_on c u) (calls_on c u evs).
Proof.
  unfold count_events, calls_on. f_equal.
  induction evs as [|e evs IH]; simpl; [reflexivity|].
  destruct e; simpl; try exact IH;
    destruct ((chat_id =? c) && (user_id =? u)) eqn:E; simpl; rewrite ?E;
    congruence.
Qed.

Lemma count_bans_attempt (c u : Z) (calls : list Event) :
  one_removal_attempt c u calls -> count_events (is_ban_on c u) calls = 1%nat.
Proof.
  intros [-> | [-> | ->]]; unfold count_events; simpl; rewrite !Z.eqb_refl;
    reflexivity.
Qed.

Section Passes.
Variable env : Env.t.
Hypothesis store_up : store_always_up env.

(** One pass with the store answering, in the form the loop needs. *)
Lemma sweep_cycle_pass (w : World) :
  exists evs,
    sweep_cycle env w = (Ret tt, mkWorld (db w) (history w ++ evs)) /\
    count_events is_sleep evs = 1%nat /\
    forall user group,
      reachable (db w) ->
      In user (users_col (db w)) -> In group (groups_col (db w)) ->
      ~ has_recent_warning (UserDoc.user_id user)
          (Env.time_time env (history w) - 86400) (db w) ->
      count_events (is_ban_on (GroupDoc.chat_id group) (UserDoc.user_id user)) evs = 1%nat.
Proof.
  destruct (sweep_cycle_run env w) as (r & evs & E & C & Hr).
  rewrite (Hr store_up) in *. exists evs. split; [exact E|].
  inversion C as [evs' U Hret Hevs| |]; subst.
  destruct (users_events_outcome U) as [Hbody _].
  split.
  - change (TimeTime (Env.time_time env (history w)) :: Store Users true :: evs' ++ [Sleep 3600])%list
      with ([TimeTime (Env.time_time env (history w)); Store Users true] ++ evs' ++ [Sleep 3600])%list.
    rewrite !count_events_app, (count_sleep_body Hbody). reflexivity.
  - intros user group Hreach Hu Hg Hno.
    destruct (reachable_unique Hreach) as [Hnu Hng].
    destruct (users_events_split user U Hu) as (pre & e1 & post & _ & U1 & Hcalls).
    change (TimeTime (Env.time_time env (history w)) :: Store Users true :: evs' ++ [Sleep 3600])%list
      with ([TimeTime (Env.time_time env (history w)); Store Users true] ++ evs' ++ [Sleep 3600])%list.
    rewrite !count_events_app.
    change (count_events (is_ban_on (GroupDoc.chat_id group) (UserDoc.user_id user))
              [TimeTime (Env.time_time env (history w)); Store Users true]) with 0%nat.
    change (count_events (is_ban_on (GroupDoc.chat_id group) (UserDoc.user_id user))
              [Sleep 3600]) with 0%nat.
    rewrite Nat.add_0_l, Nat.add_0_r, count_bans_calls, (Hcalls Hnu).
    apply count_bans_attempt.
    inversion U1; subst; [contradiction|].
    unfold calls_on. simpl. eapply groups_calls_present; eauto.
Qed.

Lemma auto_ban_passes (fuel : nat) (w : World) :
  exists evs,
    auto_ban_inactive_users env fuel w =
      (Ret tt, mkWorld (db w) (history w ++ evs)) /\
    count_events is_sleep evs = fuel /\
    forall user group,
      reachable (db w) ->
      In user (users_col (db w)) -> In group (groups_col (db w)) ->
      (forall h, ~ has_recent_warning (UserDoc.user_id user)
                     (Env.time_time env h - 86400) (db w)) ->
      count_events (is_ban_on (GroupDoc.chat_id group) (UserDoc.user_id user)) evs = fuel.
Proof.
  revert w. induction fuel as [|fuel IH]; intros w.
  - exists []. simpl. unfold ret. rewrite app_nil_r. destruct w. auto.
  - destruct (sweep_cycle_pass w) as (e1 & E1 & S1 & B1).
    destruct (IH (mkWorld (db w) (history w ++ e1))) as (e2 & E2 & S2 & B2).
    exists (e1 ++ e2)%list. simpl in E2, B2. split; [|split].
    + simpl. unfold bind. rewrite E1, E2. now rewrite app_assoc.
    + rewrite count_events_app, S1, S2. reflexivity.
    + intros user group Hreach Hu Hg Hno.
      rewrite count_events_app, (B1 user group Hreach Hu Hg (Hno _)),
        (B2 user group Hreach Hu Hg Hno). reflexivity.
Qed.
End Passes.

(** X10. While the store answers, the task never stops by itself: however
    many passes it is given, it is still running after them, having slept
    once per pass, whatever the ban and unban calls did. *)
Theorem auto_ban_runs_every_pass (env : Env.t) (fuel : nat) (w : World) :
  store_always_up env ->
  outcome (auto_ban_inactive_users env fuel) w = Ret tt /\
  count_events is_sleep (events_of (auto_ban_inactive_users env fuel) w) = fuel.
Proof.
  intros Hup. destruct (auto_ban_passes Hup fuel w) as (evs & E & Hs & _).
  apply run_facts in E. destruct E as (Hout & _ & Hev).
  rewrite Hout, Hev. auto.
Qed.

Lemma auto_ban_runs_every_pass_witness :
  store_always_up Sample.env_g1_ban_fails /\
  count_events is_sleep
    (events_of (auto_ban_inactive_users Sample.env_g1_ban_fails 3) Sample.w0) = 3%nat.
Proof.
  split; [apply sample_store_up|].
  apply (@auto_ban_runs_every_pass Sample.env_g1_ban_fails 3 Sample.w0).
  apply sample_store_up.
Defined.

(** X11. A tracked user who at no clock reading has a warning of the last
    24 hours is removed again at every pass: after [fuel] passes with the
    store answering, exactly [fuel] ban calls were made for that user on
    each tracked group. The removal is repeated every hour, not done once. *)
Theorem auto_ban_removes_at_every_pass (env : Env.t) (fuel : nat) (w : World)
    (user : UserDoc.t) (group : GroupDoc.t) :
  store_always_up env ->
  reachable (db w) ->
  In user (users_col (db w)) ->
  In group (groups_col (db w)) ->
  (forall h, ~ has_recent_warning (UserDoc.user_id user)
                 (Env.time_time env h - 86400) (db w)) ->
  count_events (is_ban_on (GroupDoc.chat_id group) (UserDoc.user_id user))
    (events_of (auto_ban_inactive_users env fuel) w) = fuel.
Proof.
  intros Hup Hreach Hu Hg Hno.
  destruct (auto_ban_passes Hup fuel w) as (evs & E & _ & Hb).
  apply run_facts in E. destruct E as (_ & _ & Hev).
  rewrite Hev. now apply Hb.
Qed.

Lemma auto_ban_removes_at_every_pass_witness :
  store_always_up (Sample.env_ok None) /\
  reachable (db Sample.w0) /\
  count_events (is_ban_on (-1002) 7)
    (events_of (auto_ban_inactive_users (Sample.env_ok None) 3) Sample.w0) = 3%nat.
Proof.
  split; [apply sample_store_up|]. split; [exact sample_db0_reachable|].
  apply (@auto_ban_removes_at_every_pass (Sample.env_ok None) 3 Sample.w0
           (user_doc Sample.alice) (group_doc Sample.g2)).
  - apply sample_store_up.
  - exact sample_db0_reachable.
  - now left.
  - right. now left.
  - intros h. apply sample_no_recent_warning.
Defined.

Lemma add_user_tracked_lookup (user : User.t) (d : DB) :
  Mongo.find_one (fun u => UserDoc.user_id u =? User.id user)
                 (users_col (add_user user d)) = Some (user_doc user).
Proof.
  unfold Mongo.find_one, add_user. simpl. now apply upsert_lookup_same.
Qed.

Lemma reply_text_run (env : Env.t) (text : string) (mode : ParseMode) (w : World) :
  reply_text env text mode w =
    (if Env.reply_text env (history w) text then Ret tt else Raise TelegramError,
     mkWorld (db w)
       (history w ++ [ReplyText text mode (Env.reply_text env (history w) text)])).
Proof. reflexivity. Qed.

(** X12. [/start] answers first and registers afterwards, one write at a
    time. If the greeting cannot be sent, nothing is written. If it is
    sent and both writes go through, the sender and the chat are upserted,
    so the sender is tracked and the chat's title can be looked up. If the
    store fails between the two writes, the sender is registered and the
    chat is not. *)
Theorem start_registers_after_greeting (env : Env.t) (update : Update.t) (w : World) :
  let greeting := "🤖 Bot per la gestione dei punti attivo." in
  let sender := Message.from_user (Update.message update) in
  let chat := Update.effective_chat update in
  let run := start env update in
  let h1 := (history w ++ [ReplyText greeting PlainText true])%list in
  let h2 := (h1 ++ [Store Users true])%list in
  (Env.reply_text env (history w) greeting = false ->
   outcome run w = Raise TelegramError /\ db (after run w) = db w /\
   events_of run w = [ReplyText greeting PlainText false]) /\
  (Env.reply_text env (history w) greeting = true ->
   Env.store_up env h1 Users = true -> Env.store_up env h2 Groups = true ->
   outcome run w = Ret tt /\
   db (after run w) = add_group chat (add_user sender (db w)) /\
   user_of (User.id sender) (db (after run w)) = Some (user_doc sender) /\
   get_group_title (Chat.id chat) (db (after run w)) = Chat.title chat) /\
  (Env.reply_text env (history w) greeting = true ->
   Env.store_up env h1 Users = true -> Env.store_up env h2 Groups = false ->
   outcome run w = Raise PyMongoError /\
   db (after run w) = add_user sender (db w)) /\
  (Env.reply_text env (history w) greeting = true ->
   Env.store_up env h1 Users = false ->
   outcome run w = Raise PyMongoError /\ db (after run w) = db w).
Proof.
  intros greeting sender chat run h1 h2. subst run.
  assert (Hrun : start env update w =
    if Env.reply_text env (history w) greeting then
      if Env.store_up env h1 Users then
        if Env.store_up env h2 Groups then
          (Ret tt, mkWorld (add_group chat (add_user sender (db w)))
                     (history w ++ [ReplyText greeting PlainText true;
                                    Store Users true; Store Groups true]))
        else
          (Raise PyMongoError,
           mkWorld (add_user sender (db w))
             (history w ++ [ReplyText greeting PlainText true;
                            Store Users true; Store Groups false]))
      else
        (Raise PyMongoError,
         mkWorld (db w)
           (history w ++ [ReplyText greeting PlainText true; Store Users false]))
    else
      (Raise TelegramError,
       mkWorld (db w) (history w ++ [ReplyText greeting PlainText false]))).
  { unfold start. unfold bind at 1. rewrite reply_text_run. fold greeting.
    destruct (Env.reply_text env (history w) greeting); [|reflexivity].
    unfold bind. rewrite command_run. simpl db. simpl history. fold h1.
    destruct (Env.store_up env h1 Users).
    - rewrite command_run. simpl db. simpl history. fold h2.
      destruct (Env.store_up env h2 Groups); unfold h2, h1;
        now rewrite <- !app_assoc.
    - unfold h1. now rewrite <- app_assoc. }
  split; [|split; [|split]].
  - intros Hr. rewrite Hr in Hrun. apply run_facts in Hrun. exact Hrun.
  - intros Hr Hu Hg. rewrite Hr, Hu, Hg in Hrun. apply run_facts in Hrun.
    destruct Hrun as (Hout & Hdb & _). rewrite Hout, Hdb.
    split; [reflexivity|]. split; [reflexivity|]. split.
    + unfold user_of, add_group. simpl. apply add_user_tracked_lookup.
    + assert (E : find (fun g => GroupDoc.chat_id g =? Chat.id chat)
                   (Mongo.update_one_upsert
                      (fun g => GroupDoc.chat_id g =? Chat.id chat)
                      (fun _ => group_doc chat) (group_doc chat)
                      (groups_col (db w))) =
                 Some (group_doc chat)) by now apply upsert_lookup_same.
      unfold get_group_title, Mongo.find_one, add_group. simpl. now rewrite E.
  - intros Hr Hu Hg. rewrite Hr, Hu, Hg in Hrun. apply run_facts in Hrun.
    destruct Hrun as (Hout & Hdb & _). now rewrite Hout, Hdb.
  - intros Hr Hu. rewrite Hr, Hu in Hrun. apply run_facts in Hrun.
    destruct Hrun as (Hout & Hdb & _). now rewrite Hout, Hdb.
Qed.

Section AdminRuns.
Variable py : Py.t.
Variable env : Env.t.
Variable update : Update.t.
Variable args : list string.
Variable w : World.

Let chat := Chat.id (Update.effective_chat update).
Let caller := User.id (Update.effective_user update).
Let member := GetMember chat caller (Env.get_member env (history w) chat caller).
Let h1 := (history w ++ [member])%list.

Hypothesis admin : authorized (Env.get_member env (history w) chat caller) = true.

(** After a passed admin check a handler goes on with its body in the
    world that has the role lookup recorded. *)
Lemma admin_passes (rest : M unit) :
  (a <- is_admin env update None ;;
   if negb a then reply_text env admin_only PlainText else rest) w =
  rest (mkWorld (db w) h1).
Proof.
  unfold bind at 1. rewrite is_admin_run.
  change (is_admin_user update None) with caller. fold chat. rewrite admin.
  reflexivity.
Qed.

Lemma warn_no_target_run :
  Message.reply_to_message (Update.message update) = None ->
  warn py env update args w =
    reply_text env "Rispondi a un messaggio per assegnare un punto." PlainText
      (mkWorld (db w) h1).
Proof. intros Hn. unfold warn. rewrite admin_passes, Hn. reflexivity. Qed.

Lemma clear_no_target_run :
  Message.reply_to_message (Update.message update) = None ->
  clear_warnings_command env update w =
    reply_text env "Rispondi a un messaggio per pulire i punti di quell’utente."
      PlainText (mkWorld (db w) h1).
Proof.
  intros Hn. unfold clear_warnings_command. rewrite admin_passes, Hn. reflexivity.
Qed.

Lemma clear_target_run (target : User.t) :
  Message.reply_to_message (Update.message update) = Some target ->
  clear_warnings_command env update w =
    (command env Warnings (clear_warnings (User.id target)) ;;
     reply_text env
       ("✅ Tutti i punti per " ++ get_user_mention target ++ " sono stati rimossi.")
       HTML) (mkWorld (db w) h1).
Proof.
  intros Ht. unfold clear_warnings_command. rewrite admin_passes, Ht. reflexivity.
Qed.

Lemma warnings_first_arg_run (first : string) (rest : list string) :
  Message.reply_to_message (Update.message update) = None ->
  args = first :: rest ->
  warnings_target py env update args (mkWorld (db w) h1) =
    try_except
      (match Py.int py first with
       | Some user_id_to_check =>
           user_info <- get_chat env user_id_to_check ;;
           ret (Some (user_id_to_check, get_user_mention user_info))
       | None => fun w0 => (Raise ValueError, w0)
       end)
      (fun _ =>
         reply_text env "Utente non trovato o ID non valido." PlainText ;;
         ret None) (mkWorld (db w) h1).
Proof. intros Hn ->. unfold warnings_target. rewrite Hn. reflexivity. Qed.
End AdminRuns.

(** X13. [/punto] and [/clearwarnings] sent by an admin but not as a reply
    do nothing but answer: after the role lookup the only thing that
    happens is the reply asking to answer a message, and the collections
    are untouched, whatever arguments were given. *)
Theorem admin_command_without_target (py : Py.t) (env : Env.t) (update : Update.t)
    (args : list string) (w : World) :
  authorized (Env.get_member env (history w)
                (Chat.id (Update.effective_chat update))
                (User.id (Update.effective_user update))) = true ->
  Message.reply_to_message (Update.message update) = None ->
  let member :=
    GetMember (Chat.id (Update.effective_chat update))
      (User.id (Update.effective_user update))
      (Env.get_member env (history w) (Chat.id (Update.effective_chat update))
         (User.id (Update.effective_user update))) in
  (db (after (warn py env update args) w) = db w /\
   exists ok,
     events_of (warn py env update args) w =
       [member; ReplyText "Rispondi a un messaggio per assegnare un punto."
                  PlainText ok]) /\
  (db (after (clear_warnings_command env update) w) = db w /\
   exists ok,
     events_of (clear_warnings_command env update) w =
       [member; ReplyText "Rispondi a un messaggio per pulire i punti di quell’utente."
                  PlainText ok]).
Proof.
  intros Hadmin Hnone member. split.
  - pose proof (warn_no_target_run py env update args w Hadmin Hnone) as E.
    rewrite reply_text_run in E. simpl in E. rewrite <- app_assoc in E.
    apply run_facts in E. destruct E as (_ & Hdb & Hev).
    split; [exact Hdb|]. eexists. exact Hev.
  - pose proof (clear_no_target_run env update w Hadmin Hnone) as E.
    rewrite reply_text_run in E. simpl in E. rewrite <- app_assoc in E.
    apply run_facts in E. destruct E as (_ & Hdb & Hev).
    split; [exact Hdb|]. eexists. exact Hev.
Qed.

Lemma admin_command_without_target_witness :
  authorized (Some "creator") = true /\
  db (after (warn Sample.py (Sample.env_ok (Some "creator"))
                  (Update.mk Sample.bob Sample.g1 (Message.mk Sample.bob None))
                  ["5"; "spam"]) Sample.w0) = db Sample.w0.
Proof.
  split; [reflexivity|].
  destruct (@admin_command_without_target Sample.py (Sample.env_ok (Some "creator"))
              (Update.mk Sample.bob Sample.g1 (Message.mk Sample.bob None))
              ["5"; "spam"] Sample.w0 eq_refl eq_refl) as [[H _] _].
  exact H.
Defined.

(** X14. [/clearwarnings] sent by an admin as a reply: if the store takes
    the delete, the database afterwards is the old one with the target's
    warnings deleted (the target has none left) and the confirmation is
    sent; if the store fails, the handler raises the store's exception,
    nothing is deleted and no confirmation is sent. *)
Theorem clear_warnings_command_effect (env : Env.t) (update : Update.t)
    (target : User.t) (w : World) :
  authorized (Env.get_member env (history w)
                (Chat.id (Update.effective_chat update))
                (User.id (Update.effective_user update))) = true ->
  Message.reply_to_message (Update.message update) = Some target ->
  let run := clear_warnings_command env update in
  let member :=
    GetMember (Chat.id (Update.effective_chat update))
      (User.id (Update.effective_user update))
      (Env.get_member env (history w) (Chat.id (Update.effective_chat update))
         (User.id (Update.effective_user update))) in
  let done :=
    "✅ Tutti i punti per " ++ get_user_mention target ++ " sono stati rimossi." in
  if Env.store_up env (history w ++ [member]) Warnings then
    db (after run w) = clear_warnings (User.id target) (db w) /\
    get_warnings (User.id target) (db (after run w)) = [] /\
    exists ok,
      events_of run w = [member; Store Warnings true; ReplyText done HTML ok] /\
      outcome run w = if ok then Ret tt else Raise TelegramError
  else
    outcome run w = Raise PyMongoError /\
    db (after run w) = db w /\
    events_of run w = [member; Store Warnings false].
Proof.
  intros Hadmin Ht run member done. subst run.
  pose proof (clear_target_run env update w Hadmin Ht) as E.
  unfold bind in E. rewrite command_run in E. simpl db in E. simpl history in E.
  fold member in E.
  destruct (Env.store_up env (history w ++ [member]) Warnings).
  - rewrite reply_text_run in E. simpl db in E. simpl history in E. fold done in E.
    rewrite <- !app_assoc in E. simpl app in E.
    apply run_facts in E. destruct E as (Hout & Hdb & Hev).
    rewrite Hdb. split; [reflexivity|]. split.
    + unfold get_warnings, clear_warnings, Mongo.find, Mongo.delete_many. simpl.
      rewrite filter_none; [reflexivity|].
      intros x Hx. apply filter_In in Hx. destruct Hx as [_ Hx].
      now destruct (WarningDoc.user_id x =? User.id target).
    + eexists. split; [exact Hev|exact Hout].
  - rewrite <- !app_assoc in E. simpl app in E.
    apply run_facts in E. destruct E as (Hout & Hdb & Hev). auto.
Qed.

Lemma clear_warnings_command_effect_witness :
  authorized (Some "administrator") = true /\
  total_warnings 7
    (db (after (clear_warnings_command (Sample.env_ok (Some "administrator"))
                  Sample.reply_to_alice)
               (mkWorld (add_warning 7 (-1001) "spam" 5 Sample.db0) []))) = 0%nat.
Proof.
  split; [reflexivity|].
  pose proof (@clear_warnings_command_effect (Sample.env_ok (Some "administrator"))
                Sample.reply_to_alice Sample.alice
                (mkWorld (add_warning 7 (-1001) "spam" 5 Sample.db0) [])
                eq_refl eq_refl) as H.
  cbv zeta in H.
  change (Env.store_up (Sample.env_ok (Some "administrator")) _ Warnings) with true in H.
  cbv iota in H. destruct H as (Hdb & _). rewrite Hdb. reflexivity.
Defined.

Lemma warn_refused (py : Py.t) (env : Env.t) (update : Update.t)
    (args : list string) (w : World) :
  authorized (Env.get_member env (history w)
                (Chat.id (Update.effective_chat update))
                (User.id (Update.effective_user update))) = false ->
  db (after (warn py env update args) w) = db w.
Proof.
  intros Hno. unfold warn. refine (proj1 (@refused_run env update w _ Hno)).
Qed.

(** X15. One [/punto] never adds more than 100 warning documents and
    never removes or rewrites one: whoever sends it, whatever the
    arguments and whatever fails on the way, the warnings collection
    afterwards is the old one followed by at most 100 new documents, and
    the groups collection is untouched. *)
Theorem warn_adds_at_most_100 (py : Py.t) (env : Env.t) (update : Update.t)
    (args : list string) (w : World) :
  exists added,
    warnings_col (db (after (warn py env update args) w)) =
      (warnings_col (db w) ++ added)%list /\
    (List.length added <= 100)%nat /\
    groups_col (db (after (warn py env update args) w)) = groups_col (db w).
Proof.
  destruct (authorized (Env.get_member env (history w)
                          (Chat.id (Update.effective_chat update))
                          (User.id (Update.effective_user update)))) eqn:Hadmin.
  - destruct (Message.reply_to_message (Update.message update)) as [target|] eqn:Ht.
    + destruct (@warn_run py env update args target w Hadmin Ht)
        as (r & d & stamps & evs & E & Hd & Hle & _).
      apply run_facts in E. destruct E as (_ & Hdb & _). rewrite Hdb.
      eexists. split; [|split].
      * destruct Hd as [->|(-> & _)]; reflexivity.
      * unfold new_warnings. rewrite length_map. lia.
      * destruct Hd as [->|(-> & _)]; reflexivity.
    + rewrite (warn_without_target py env update args w Hadmin Ht).
      exists []. rewrite app_nil_r. simpl. repeat split. lia.
  - rewrite (warn_refused py env update args w Hadmin).
    exists []. rewrite app_nil_r. simpl. repeat split. lia.
Qed.

(* ------------------------------------------------------------------ *)
(** ** Mentions *)

Lemma char_occurs_app (c : ascii) (s1 s2 : string) :
  char_occurs c (s1 ++ s2) = char_occurs c s1 || char_occurs c s2.
Proof.
  induction s1 as [|c' s1 IH]; simpl; [reflexivity|].
  now rewrite IH, orb_assoc.
Qed.

Lemma escape_char_no_markup (c c' : ascii) :
  In c markup_chars -> char_occurs c (escape_char c') = false.
Proof.
  intros Hc. unfold escape_char.
  destruct (Ascii.eqb c' "&") eqn:E1;
    [simpl in Hc; decompose [or] Hc; subst; try contradiction; reflexivity|].
  destruct (Ascii.eqb c' "<") eqn:E2;
    [simpl in Hc; decompose [or] Hc; subst; try contradiction; reflexivity|].
  destruct (Ascii.eqb c' ">") eqn:E3;
    [simpl in Hc; decompose [or] Hc; subst; try contradiction; reflexivity|].
  destruct (Ascii.eqb c' (ascii_of_nat 34)) eqn:E4;
    [simpl in Hc; decompose [or] Hc; subst; try contradiction; reflexivity|].
  destruct (Ascii.eqb c' "'") eqn:E5;
    [simpl in Hc; decompose [or] Hc; subst; try contradiction; reflexivity|].
  simpl in Hc. simpl char_occurs. rewrite orb_false_r.
  decompose [or] Hc; subst; try contradiction; assumption.
Qed.

Lemma html_escape_no_markup (c : ascii) (s : string) :
  In c markup_chars -> char_occurs c (html_escape s) = false.
Proof.
  intros Hc. induction s as [|c' s IH]; simpl; [reflexivity|].
  now rewrite char_occurs_app, escape_char_no_markup, IH.
Qed.

Lemma html_escape_nonempty (s : string) : s <> "" -> html_escape s <> "".
Proof.
  destruct s as [|c s]; [congruence|]. intros _. simpl.
  unfold escape_char.
  repeat match goal with |- context [if ?b then _ else _] => destruct b end;
    discriminate.
Qed.

(** X16. The mention [get_user_mention] builds is a link to the user's id
    whose text is never empty (a user without first name shows as
    "Utente") and contains none of the characters that open or close a tag
    or an attribute value, whatever the first name is. *)
Theorem get_user_mention_is_safe (user : User.t) :
  exists name,
    get_user_mention user =
      "<a href='tg://user?id=" ++ str_of_Z (User.id user) ++ "'>" ++ name ++ "</a>" /\
    name <> "" /\
    (forall c, In c markup_chars -> char_occurs c name = false) /\
    (User.first_name user = "" -> name = "Utente").
Proof.
  exists (html_escape (str_or (User.first_name user) "Utente")).
  split; [reflexivity|]. split; [|split].
  - apply html_escape_nonempty. unfold str_or.
    destruct (String.eqb (User.first_name user) "") eqn:E; [discriminate|].
    now apply String.eqb_neq in E.
  - intros c Hc. now apply html_escape_no_markup.
  - intros ->. reflexivity.
Qed.

(** X17. [safe_mention] on the document [add_user] stored for a user gives
    the same mention as [get_user_mention] on the user, provided the first
    name is not empty; its link text is free of the markup characters as
    well. With an empty first name the two differ: the stored document
    gives an empty link text. *)
Theorem safe_mention_of_stored_user (user : User.t) (d : DB) :
  (exists doc,
     user_of (User.id user) (add_user user d) = Some doc /\
     (User.first_name user <> "" -> safe_mention doc = get_user_mention user) /\
     (User.first_name user = "" ->
      safe_mention doc = mention_of (User.id user) "" /\
      get_user_mention user = mention_of (User.id user) "Utente")) /\
  (forall doc c, In c markup_chars ->
     char_occurs c (html_escape (UserDoc.first_name doc)) = false).
Proof.
  split.
  - exists (user_doc user). split; [apply add_user_tracked_lookup|]. split.
    + intros Hne. unfold safe_mention, get_user_mention, str_or. simpl.
      apply String.eqb_neq in Hne. now rewrite Hne.
    + intros E. unfold safe_mention, get_user_mention. simpl. rewrite E.
      split; reflexivity.
  - intros doc c Hc. now apply html_escape_no_markup.
Qed.

(* ------------------------------------------------------------------ *)
(** ** [/warnings], [/topwarnings], [/nowarnings] *)

(** X18. [/warnings <id>] sent by an admin, not as a reply: when the
    argument is not an integer, or the lookup of that id fails, the
    handler answers that the user was not found and stops there; it makes
    no store round trip and changes nothing. *)
Theorem warnings_command_unknown_user (py : Py.t) (env : Env.t) (update : Update.t)
    (first : string) (rest : list string) (w : World) :
  authorized (Env.get_member env (history w)
                (Chat.id (Update.effective_chat update))
                (User.id (Update.effective_user update))) = true ->
  Message.reply_to_message (Update.message update) = None ->
  let run := warnings_command py env update (first :: rest) in
  let member :=
    GetMember (Chat.id (Update.effective_chat update))
      (User.id (Update.effective_user update))
      (Env.get_member env (history w) (Chat.id (Update.effective_chat update))
         (User.id (Update.effective_user update))) in
  let not_found := "Utente non trovato o ID non valido." in
  (Py.int py first = None ->
   db (after run w) = db w /\
   exists ok, events_of run w = [member; ReplyText not_found PlainText ok]) /\
  (forall id,
     Py.int py first = Some id ->
     Env.get_chat env (history w ++ [member]) id = None ->
     db (after run w) = db w /\
     exists ok,
       events_of run w = [member; GetChat id None; ReplyText not_found PlainText ok]).
Proof.
  intros Hadmin Hnone run member not_found. subst run.
  assert (Hrun : warnings_command py env update (first :: rest) w =
    (target <- warnings_target py env update (first :: rest) ;;
     match target with
     | None => ret tt
     | Some (user_id_to_check, user_to_mention) =>
         warnings_data <- query env Warnings (get_warnings user_id_to_check) ;;
         match warnings_data with
         | _ :: _ =>
             warning_text <-
               warning_lines py env warnings_data
                 ("📋 Punti per " ++ user_to_mention ++ ":" ++ newline) ;;
             reply_text env warning_text HTML
         | [] => reply_text env (user_to_mention ++ " non ha ancora punti.") HTML
         end
     end) (mkWorld (db w) (history w ++ [member]))).
  { unfold warnings_command. now rewrite admin_passes. }
  unfold bind at 1 in Hrun.
  rewrite (warnings_first_arg_run py env update w (first := first) (rest := rest))
    in Hrun by auto.
  fold member in Hrun.
  split.
  - intros Hint. rewrite Hint in Hrun. unfold try_except, bind in Hrun.
    rewrite reply_text_run in Hrun. simpl db in Hrun. simpl history in Hrun.
    fold not_found in Hrun.
    destruct (Env.reply_text env (history w ++ [member]) not_found) eqn:Hok;
      unfold ret in Hrun; rewrite <- !app_assoc in Hrun; simpl app in Hrun;
      apply run_facts in Hrun; destruct Hrun as (_ & Hdb & Hev);
      (split; [exact Hdb|eexists; exact Hev]).
  - intros id Hint Hchat. rewrite Hint in Hrun.
    unfold try_except, bind, get_chat in Hrun. simpl history in Hrun.
    rewrite Hchat in Hrun. rewrite reply_text_run in Hrun.
    simpl db in Hrun. simpl history in Hrun. fold not_found in Hrun.
    destruct (Env.reply_text env ((history w ++ [member]) ++ [GetChat id None]) not_found)
      eqn:Hok;
      unfold ret in Hrun; rewrite <- !app_assoc in Hrun; simpl app in Hrun;
      apply run_facts in Hrun; destruct Hrun as (_ & Hdb & Hev);
      (split; [exact Hdb|eexists; exact Hev]).
Qed.

(** Bob, an administrator, sends [/warnings abc]. *)
Lemma warnings_command_unknown_user_witness :
  authorized (Some "administrator") = true /\
  Py.int Sample.py "abc" = None /\
  exists ok,
    events_of (warnings_command Sample.py (Sample.env_ok (Some "administrator"))
                 (Update.mk Sample.bob Sample.g1 (Message.mk Sample.bob None))
                 ["abc"]) Sample.w0 =
      [GetMember (-1001) 8 (Some "administrator");
       ReplyText "Utente non trovato o ID non valido." PlainText ok].
Proof.
  split; [reflexivity|]. split; [reflexivity|].
  destruct (@warnings_command_unknown_user Sample.py
              (Sample.env_ok (Some "administrator"))
              (Update.mk Sample.bob Sample.g1 (Message.mk Sample.bob None))
              "abc" [] Sample.w0 eq_refl eq_refl) as [H _].
  destruct (H eq_refl) as [_ Hev]. exact Hev.
Defined.

Lemma no_warnings_run (env : Env.t) (w : World) :
  store_always_up env ->
  no_warnings env w =
    match get_users_with_no_warnings (db w) with
    | [] =>
        reply_text env "Tutti gli utenti hanno almeno un punto." PlainText
          (mkWorld (db w) (history w ++ [Store Warnings true; Store Users true]))
    | user :: rest =>
        reply_text env
          (no_warnings_lines (user :: rest) 1
             ("<b>👥 Utenti senza punti:</b>" ++ newline)) HTML
          (mkWorld (db w) (history w ++ [Store Warnings true; Store Users true]))
    end.
Proof.
  intros Hup. unfold no_warnings, bind. rewrite !query_run, Hup.
  rewrite query_run, Hup. simpl db. simpl history. rewrite <- app_assoc. simpl app.
  unfold get_users_with_no_warnings. cbn [db].
  now destruct (users_not_in (warned_user_ids (db w)) (db w)).
Qed.

(** X19. [/nowarnings] with the store answering: the reply is the fixed
    sentence that every user has at least one point exactly when no
    tracked user is without warnings (also when nobody is tracked);
    otherwise it is the HTML list. Either way the handler makes one read
    of the warnings and one of the users and nothing else. *)
Theorem no_warnings_reply (env : Env.t) (w : World) :
  store_always_up env ->
  let evs := events_of (no_warnings env) w in
  let everyone := "Tutti gli utenti hanno almeno un punto." in
  ((forall doc, In doc (users_col (db w)) ->
                (1 <= total_warnings (UserDoc.user_id doc) (db w))%nat) <->
   exists ok,
     evs = [Store Warnings true; Store Users true; ReplyText everyone PlainText ok]) /\
  exists text mode ok,
    evs = [Store Warnings true; Store Users true; ReplyText text mode ok].
Proof.
  intros Hup evs everyone. subst evs.
  pose proof (no_warnings_run w Hup) as E.
  assert (Hall : (forall doc, In doc (users_col (db w)) ->
                    (1 <= total_warnings (UserDoc.user_id doc) (db w))%nat) <->
                 get_users_with_no_warnings (db w) = []).
  { split.
    - intros H. destruct (get_users_with_no_warnings (db w)) as [|doc l] eqn:El;
        [reflexivity|].
      assert (Hin : In doc (get_users_with_no_warnings (db w)))
        by (rewrite El; now left).
      apply no_warnings_In in Hin. destruct Hin as [Hin H0].
      specialize (H doc Hin). lia.
    - intros El doc Hin.
      destruct (total_warnings (UserDoc.user_id doc) (db w)) eqn:Et; [|lia].
      assert (Hl : In doc (get_users_with_no_warnings (db w)))
        by (apply no_warnings_In; auto).
      rewrite El in Hl. contradiction. }
  destruct (get_users_with_no_warnings (db w)) as [|doc l] eqn:El;
    rewrite reply_text_run in E; simpl db in E; simpl history in E;
    rewrite <- app_assoc in E; simpl app in E;
    apply run_facts in E; destruct E as (_ & _ & Hev); rewrite Hev.
  - split; [|eauto]. split; [eauto|]. intros _. now apply Hall.
  - split; [|eauto]. split.
    + intros H. apply Hall in H. discriminate.
    + intros (ok & Heq). inversion Heq.
Qed.

Lemma no_warnings_reply_witness :
  store_always_up (Sample.env_ok None) /\
  exists text mode ok,
    events_of (no_warnings (Sample.env_ok None)) Sample.w0 =
      [Store Warnings true; Store Users true; ReplyText text mode ok].
Proof.
  split; [apply sample_store_up|].
  apply (@no_warnings_reply (Sample.env_ok None) Sample.w0 (sample_store_up _ _ _ _)).
Defined.








